(** * etl.py: the Sparkify data-lake job, embedded in Rocq

    The source is one Python script, [etl.py], that drives a distributed
    dataframe engine.  The embedding has three layers:

    - the engine's data: values, rows, data frames, column expressions and
      the relational operators the script calls (select, filter,
      dropDuplicates, withColumn, join, the parquet writer);
    - the Python run time the script relies on: dynamically typed objects,
      the local frame of the running function, name resolution against the
      frame, the module's globals and the builtins, exceptions;
    - the script itself: every statement of [create_spark_session],
      [process_song_data], [process_log_data] and [main], in source order,
      as a computation in a state-and-exception monad. *)

From Stdlib Require Import ZArith Ascii String List Bool.
From stdpp Require Import base tactics option list strings gmap.

Local Open Scope Z_scope.

(** ** Engine data *)

(** A cell of a data frame.  JSON numbers are read as longs or doubles; the
    script does no arithmetic on doubles (duration, latitude, longitude are
    only passed through), so a double is kept as its 64-bit pattern. *)
Inductive value :=
| VNull
| VBool (b : bool)
| VStr (s : string)
| VLong (n : Z)
| VDouble (bits : Z).

#[global] Instance value_eq_dec : EqDecision value.
Proof. solve_decision. Defined.

Definition row := list value.

(** A data frame: the column names, and one list of cells per row. *)
Record DataFrame := mkDF { columns : list string; rows : list row }.

#[global] Instance DataFrame_eq_dec : EqDecision DataFrame.
Proof. solve_decision. Defined.

(** The two lambdas of the script, wrapped by [udf] at lines 106 and 110. *)
Inductive lambda := Lambda106 | Lambda110.

#[global] Instance lambda_eq_dec : EqDecision lambda.
Proof. solve_decision. Defined.

(** Column expressions, as built by [col], [df.name], [==], [&], the SQL
    functions, a udf call, [alias] and [monotonically_increasing_id]. *)
Inductive Column :=
| CName (c : string)
| CLit (v : value)
| CEq (a b : Column)
| CAnd (a b : Column)
| CFn (f : string) (a : Column)
| CUdf (l : lambda) (a : Column)
| CAlias (a : Column) (n : string)
| CMonoId.

#[global] Instance Column_eq_dec : EqDecision Column.
Proof. solve_decision. Defined.

(** What the engine and the Python workers compute on one cell: the SQL
    scalar functions ([year], [month], [dayofmonth], [hour], [weekofyear],
    [dayofweek]) and the two lambdas (float division and the worker's local
    time zone are involved).  They are not part of the script. *)
Record Engine := {
  sql_fn : string -> value -> value;
  py_lambda : lambda -> value -> value
}.

Definition mem (x : string) (l : list string) : bool :=
  existsb (String.eqb x) l.

(** The engine resolves a column name without regard to case
    ([spark.sql.caseSensitive] is off unless the session sets it, and the
    script does not); the letters that have a case are taken to be A-Z.
    Python, where it looks a name up in [df.columns], compares the
    strings as they are. *)
Definition lower_ascii (c : ascii) : ascii :=
  let n := nat_of_ascii c in
  if Nat.leb 65 n && Nat.leb n 90 then ascii_of_nat (n + 32) else c.

Fixpoint lower (s : string) : string :=
  match s with
  | EmptyString => EmptyString
  | String c s' => String (lower_ascii c) (lower s')
  end.

Definition same_name (a b : string) : bool := String.eqb (lower a) (lower b).

(** The frame has a column the engine resolves [c] to. *)
Definition has_column (cols : list string) (c : string) : bool :=
  existsb (same_name c) cols.

(** The column [c] resolves to.  The frames of a run come from the
    reader, which yields no schema with two columns that differ in case
    only, and no statement of the script adds such a pair; the first
    match is then the only one. *)
Fixpoint col_index (cols : list string) (c : string) : option nat :=
  match cols with
  | [] => None
  | c' :: cols' =>
      if same_name c c' then Some O
      else match col_index cols' c with Some i => Some (S i) | None => None end
  end.

(** The cell of row [r] under column [c]. *)
Definition field (cols : list string) (r : row) (c : string) : value :=
  match col_index cols c with
  | Some i => nth i r VNull
  | None => VNull
  end.

(** Analysis: every column an expression names exists in the frame. *)
Fixpoint resolves (cols : list string) (c : Column) : bool :=
  match c with
  | CName x => has_column cols x
  | CLit _ | CMonoId => true
  | CEq a b | CAnd a b => resolves cols a && resolves cols b
  | CFn _ a | CUdf _ a | CAlias a _ => resolves cols a
  end.

(** SQL equality and conjunction are three-valued. *)
Definition sql_eq (a b : value) : value :=
  match a, b with
  | VNull, _ | _, VNull => VNull
  | _, _ => VBool (bool_decide (a = b))
  end.

Definition sql_and (a b : value) : value :=
  match a, b with
  | VBool false, _ | _, VBool false => VBool false
  | VBool true, VBool true => VBool true
  | _, _ => VNull
  end.

Section Eval.
Context (E : Engine).

(** The value of an expression on row number [i]. *)
Fixpoint eval_col (cols : list string) (i : nat) (r : row) (c : Column) : value :=
  match c with
  | CName x => field cols r x
  | CLit v => v
  | CEq a b => sql_eq (eval_col cols i r a) (eval_col cols i r b)
  | CAnd a b => sql_and (eval_col cols i r a) (eval_col cols i r b)
  | CFn f a => sql_fn E f (eval_col cols i r a)
  | CUdf l a => py_lambda E l (eval_col cols i r a)
  | CAlias a _ => eval_col cols i r a
  | CMonoId => VLong (Z.of_nat i)
  end.
End Eval.

(** The name a projected expression gets in the result. *)
Fixpoint col_name (c : Column) : string :=
  match c with
  | CName x => x
  | CAlias _ n => n
  | CLit _ => "lit"
  | CEq a b => "(" +:+ col_name a +:+ " = " +:+ col_name b +:+ ")"
  | CAnd a b => "(" +:+ col_name a +:+ " AND " +:+ col_name b +:+ ")"
  | CFn f a => f +:+ "(" +:+ col_name a +:+ ")"
  | CUdf _ a => "<lambda>(" +:+ col_name a +:+ ")"
  | CMonoId => "monotonically_increasing_id()"
  end.

Fixpoint imap_rows {A} (f : nat -> row -> A) (i : nat) (rs : list row) : list A :=
  match rs with
  | [] => []
  | r :: rs' => f i r :: imap_rows f (S i) rs'
  end.

Section Relational.
Context (E : Engine).

(** [df.select(c1, ..., cn)] once analysis has passed. *)
Definition df_select (cs : list Column) (d : DataFrame) : DataFrame :=
  mkDF (map col_name cs)
       (imap_rows (fun i r => map (eval_col E (columns d) i r) cs) O (rows d)).

(** [df.filter(c)]: the rows on which [c] is true (not false, not null). *)
Definition df_filter (c : Column) (d : DataFrame) : DataFrame :=
  mkDF (columns d)
       (List.filter (fun r => bool_decide (eval_col E (columns d) O r c = VBool true))
                    (rows d)).

(** [df.dropDuplicates()]: one copy of every row. *)
Definition df_dropDuplicates (d : DataFrame) : DataFrame :=
  mkDF (columns d) (remove_dups (rows d)).

Fixpoint set_nth (i : nat) (v : value) (r : row) : row :=
  match i, r with
  | O, _ :: r' => v :: r'
  | S i', x :: r' => x :: set_nth i' v r'
  | _, [] => []
  end.

(** [df.withColumn(n, c)]: replaces the column [n] resolves to, which
    takes the name [n], when the frame has one; appends it otherwise. *)
Definition df_withColumn (n : string) (c : Column) (d : DataFrame) : DataFrame :=
  match col_index (columns d) n with
  | Some k =>
      mkDF (<[k := n]> (columns d))
           (imap_rows (fun i r => set_nth k (eval_col E (columns d) i r c) r) O (rows d))
  | None =>
      mkDF (columns d ++ [n])
           (imap_rows (fun i r => r ++ [eval_col E (columns d) i r c]) O (rows d))
  end.

(** [df.join(other, on)] with a column condition: inner join. *)
Definition df_join (d1 d2 : DataFrame) (on : Column) : DataFrame :=
  let cols := columns d1 ++ columns d2 in
  mkDF cols
       (List.filter (fun r => bool_decide (eval_col E cols O r on = VBool true))
          (flat_map (fun r1 => map (fun r2 => r1 ++ r2) (rows d2)) (rows d1))).
End Relational.

(** ** Python run time *)

Inductive exn :=
| NameError (name : string)
| AttributeError (type attr : string)
| TypeError (msg : string)
| KeyError (key : string)
| ValueError (msg : string)
| AnalysisException (msg : string).

#[global] Instance exn_eq_dec : EqDecision exn.
Proof. solve_decision. Defined.

Definition is_name_error (e : exn) : bool :=
  match e with NameError _ => true | _ => false end.

(** Python objects the script handles.  [PGlobal q] is what a module-level
    or builtin name is bound to (a module, a function, the parsed
    configuration); [PMethod o m] is the bound method [o.m]. *)
Inductive pyobj :=
| PNone
| PBool (b : bool)
| PInt (n : Z)
| PStr (s : string)
| PGlobal (qualname : string)
| PLambda (l : lambda)
| PUdf (l : lambda)
| PBuilder
| PSession
| PReader
| PDataFrame (d : DataFrame)
| PWriter (d : DataFrame) (parts : list string)
| PColumn (c : Column)
| PCfgSection (section : string)
| PMethod (self : pyobj) (m : string).

Definition type_name (o : pyobj) : string :=
  match o with
  | PNone => "NoneType"
  | PBool _ => "bool"
  | PInt _ => "int"
  | PStr _ => "str"
  | PGlobal _ => "module"
  | PLambda _ => "function"
  | PUdf _ => "function"
  | PBuilder => "Builder"
  | PSession => "SparkSession"
  | PReader => "DataFrameReader"
  | PDataFrame _ => "DataFrame"
  | PWriter _ _ => "DataFrameWriter"
  | PColumn _ => "Column"
  | PCfgSection _ => "SectionProxy"
  | PMethod _ _ => "method"
  end.

(** A table in object storage: its rows and the columns it is
    partitioned by. *)
Record stored := mkStored { partition_by : list string; table : DataFrame }.

(** What a run does that can be observed from outside the process. *)
Inductive event :=
| ECall (f : string)
| ERead (path : string)
| EPrintSchema (cols : list string)
| EShow (n : Z) (rs : list row)
| ETempView (view : string) (d : DataFrame)
| EWrite (path mode : string).

#[global] Instance event_eq_dec : EqDecision event.
Proof. solve_decision. Defined.

(** The state a run threads: object storage (path to table), the parsed
    [dl.cfg] (section to key to value), [os.environ], the local frame of
    the running function (most recent binding first) and the events so
    far (oldest first). *)
Record state := mkState {
  fs : gmap string stored;
  config : gmap string (gmap string string);
  environ : gmap string string;
  frame : list (string * pyobj);
  trace : list event
}.

Inductive result (A : Type) :=
| Ok (a : A)
| Raise (e : exn).
Arguments Ok {A} a.
Arguments Raise {A} e.

Definition M (A : Type) : Type := state -> result A * state.

Definition ret {A} (a : A) : M A := fun s => (Ok a, s).

Definition bind {A B} (m : M A) (k : A -> M B) : M B :=
  fun s => match m s with
           | (Ok a, s') => k a s'
           | (Raise e, s') => (Raise e, s')
           end.

Definition raise {A} (e : exn) : M A := fun s => (Raise e, s).

Declare Scope py_scope.
Delimit Scope py_scope with py.
Notation "x <- m ;; k" := (bind m (fun x => k))
  (at level 100, m at next level, right associativity) : py_scope.
Notation "m ;; k" := (bind m (fun _ => k))
  (at level 100, right associativity) : py_scope.
Local Open Scope py_scope.

Definition emit (ev : event) : M unit :=
  fun s => (Ok tt, mkState (fs s) (config s) (environ s) (frame s) (trace s ++ [ev])).

(** *** Names *)

(** The names bound at module level when a function of the script runs:
    the imports of lines 1-6, [config] (line 9) and the four functions. *)
Definition module_globals : list string :=
  [ "configparser"; "datetime"; "os"; "SparkSession"; "udf"; "col";
    "year"; "month"; "dayofmonth"; "hour"; "weekofyear"; "date_format";
    "config"; "create_spark_session"; "process_song_data";
    "process_log_data"; "main" ].

(** Python 3's builtin functions, constants and base exceptions. *)
Definition builtins : list string :=
  [ "abs"; "all"; "any"; "ascii"; "bin"; "bool"; "breakpoint"; "bytearray";
    "bytes"; "callable"; "chr"; "classmethod"; "compile"; "complex";
    "delattr"; "dict"; "dir"; "divmod"; "enumerate"; "eval"; "exec";
    "filter"; "float"; "format"; "frozenset"; "getattr"; "globals";
    "hasattr"; "hash"; "help"; "hex"; "id"; "input"; "int"; "isinstance";
    "issubclass"; "iter"; "len"; "list"; "locals"; "map"; "max";
    "memoryview"; "min"; "next"; "object"; "oct"; "open"; "ord"; "pow";
    "print"; "property"; "range"; "repr"; "reversed"; "round"; "set";
    "setattr"; "slice"; "sorted"; "staticmethod"; "str"; "sum"; "super";
    "tuple"; "type"; "vars"; "zip"; "__import__"; "None"; "True"; "False";
    "Ellipsis"; "NotImplemented"; "__debug__"; "__name__"; "copyright";
    "credits"; "license"; "exit"; "quit"; "BaseException"; "Exception";
    "ArithmeticError"; "AssertionError"; "AttributeError"; "EOFError";
    "ImportError"; "IndexError"; "KeyError"; "KeyboardInterrupt";
    "LookupError"; "MemoryError"; "NameError"; "NotImplementedError";
    "OSError"; "IOError"; "OverflowError"; "RuntimeError";
    "StopIteration"; "SyntaxError"; "SystemExit"; "TypeError";
    "UnboundLocalError"; "UnicodeError"; "ValueError"; "Warning";
    "ZeroDivisionError" ].

Fixpoint assoc (x : string) (l : list (string * pyobj)) : option pyobj :=
  match l with
  | [] => None
  | (y, v) :: l' => if String.eqb x y then Some v else assoc x l'
  end.

(** The local variable [x] of the running function, if bound. *)
Definition local (s : state) (x : string) : option pyobj := assoc x (frame s).

(** Evaluating the name [x]: the frame, then the module's globals, then
    the builtins; otherwise NameError. *)
Definition name (x : string) : M pyobj :=
  fun s => match assoc x (frame s) with
           | Some v => (Ok v, s)
           | None =>
               if mem x module_globals || mem x builtins
               then (Ok (PGlobal x), s)
               else (Raise (NameError x), s)
           end.

(** [x = v] *)
Definition assign (x : string) (v : pyobj) : M unit :=
  fun s => (Ok tt, mkState (fs s) (config s) (environ s)
                           ((x, v) :: List.filter (fun b => negb (String.eqb x (fst b))) (frame s))
                           (trace s)).

(** Calling a function of the script: a fresh frame holding the
    arguments; the caller's frame is back when the call returns, and the
    raising function's frame is what is left when it does not. *)
Definition enter {A} (f : string) (params : list (string * pyobj)) (body : M A) : M A :=
  fun s =>
    match body (mkState (fs s) (config s) (environ s) params (trace s ++ [ECall f])) with
    | (Ok a, s') => (Ok a, mkState (fs s') (config s') (environ s') (frame s) (trace s'))
    | (Raise e, s') => (Raise e, s')
    end.

(** *** Operators *)

(** [a + b]: the script only concatenates strings. *)
Definition py_add (a b : pyobj) : M pyobj :=
  match a, b with
  | PStr x, PStr y => ret (PStr (x +:+ y))
  | PInt x, PInt y => ret (PInt (x + y))
  | _, _ => raise (TypeError ("unsupported operand type(s) for +: '" +:+ type_name a
                              +:+ "' and '" +:+ type_name b +:+ "'"))
  end.

(** A Python object where the engine expects a column: a literal becomes
    a literal column. *)
Definition lit_column (o : pyobj) : option Column :=
  match o with
  | PColumn c => Some c
  | PStr s => Some (CLit (VStr s))
  | PInt n => Some (CLit (VLong n))
  | PBool b => Some (CLit (VBool b))
  | PNone => Some (CLit VNull)
  | _ => None
  end.

(** [a == b]: a column on either side builds a column expression;
    otherwise Python compares the two objects. *)
Definition py_eq (a b : pyobj) : M pyobj :=
  match a, b with
  | PColumn x, _ =>
      match lit_column b with
      | Some y => ret (PColumn (CEq x y))
      | None => raise (TypeError ("Invalid argument, not a string or column: " +:+ type_name b))
      end
  | _, PColumn y =>
      match lit_column a with
      | Some x => ret (PColumn (CEq y x))
      | None => raise (TypeError ("Invalid argument, not a string or column: " +:+ type_name a))
      end
  | PStr x, PStr y => ret (PBool (String.eqb x y))
  | PInt x, PInt y => ret (PBool (Z.eqb x y))
  | PBool x, PBool y => ret (PBool (Bool.eqb x y))
  | PNone, PNone => ret (PBool true)
  | _, _ => ret (PBool false)
  end.

(** [a & b] *)
Definition py_and (a b : pyobj) : M pyobj :=
  match a, b with
  | PColumn x, _ =>
      match lit_column b with
      | Some y => ret (PColumn (CAnd x y))
      | None => raise (TypeError ("Invalid argument, not a string or column: " +:+ type_name b))
      end
  | _, PColumn y =>
      match lit_column a with
      | Some x => ret (PColumn (CAnd y x))
      | None => raise (TypeError ("Invalid argument, not a string or column: " +:+ type_name a))
      end
  | PBool x, PBool y => ret (PBool (x && y))
  | PInt x, PInt y => ret (PInt (Z.land x y))
  | _, _ => raise (TypeError ("unsupported operand type(s) for &: '" +:+ type_name a
                              +:+ "' and '" +:+ type_name b +:+ "'"))
  end.

(** The truth value Python takes of an object, as the [and] hidden in a
    chained comparison does: a column has none. *)
Definition py_truth (o : pyobj) : M bool :=
  match o with
  | PColumn _ => raise (ValueError "Cannot convert column into bool")
  | PBool b => ret b
  | PNone => ret false
  | PInt n => ret (negb (Z.eqb n 0))
  | PStr s => ret (negb (String.eqb s ""))
  | _ => ret true
  end.

(** [o[k]] on the parsed configuration and its sections. *)
Definition getitem (o k : pyobj) : M pyobj :=
  fun s =>
    match o, k with
    | PGlobal g, PStr sec =>
        if String.eqb g "config" then
          match config s !! sec with
          | Some _ => (Ok (PCfgSection sec), s)
          | None => (Raise (KeyError sec), s)
          end
        else (Raise (TypeError ("'" +:+ type_name o +:+ "' object is not subscriptable")), s)
    | PCfgSection sec, PStr key =>
        match config s !! sec with
        | Some kv =>
            match kv !! key with
            | Some v => (Ok (PStr v), s)
            | None => (Raise (KeyError key), s)
            end
        | None => (Raise (KeyError sec), s)
        end
    | _, _ => (Raise (TypeError ("'" +:+ type_name o +:+ "' object is not subscriptable")), s)
    end.

(** [os.environ[k] = v] *)
Definition setitem (o k v : pyobj) : M unit :=
  fun s =>
    match o, k, v with
    | PGlobal g, PStr key, PStr val =>
        if String.eqb g "os.environ"
        then (Ok tt, mkState (fs s) (config s) (<[key := val]> (environ s)) (frame s) (trace s))
        else (Raise (TypeError ("'" +:+ type_name o +:+ "' object does not support item assignment")), s)
    | PGlobal _, _, _ => (Raise (TypeError "str expected"), s)
    | _, _, _ => (Raise (TypeError ("'" +:+ type_name o +:+ "' object does not support item assignment")), s)
    end.

(** [os.path.join(a, b)] on POSIX paths. *)
Definition ends_with_slash (a : string) : bool :=
  match String.length a with
  | O => false
  | S n => match String.get n a with
           | Some c => Ascii.eqb c "/"%char
           | None => false
           end
  end.

Definition path_join (a b : string) : string :=
  if String.prefix "/" b then b
  else if String.eqb a "" || ends_with_slash a then a +:+ b
  else a +:+ "/" +:+ b.

(** *** Attributes *)

(** The data-frame methods the script calls. *)
Definition df_methods : list string :=
  [ "select"; "filter"; "dropDuplicates"; "withColumn"; "join"; "show";
    "printSchema"; "createOrReplaceTempView" ].

(** The attributes of Python's [str]: only methods, among them [title]. *)
Definition str_attrs : list string :=
  [ "capitalize"; "casefold"; "center"; "count"; "encode"; "endswith";
    "expandtabs"; "find"; "format"; "format_map"; "index"; "isalnum";
    "isalpha"; "isascii"; "isdecimal"; "isdigit"; "isidentifier";
    "islower"; "isnumeric"; "isprintable"; "isspace"; "istitle";
    "isupper"; "join"; "ljust"; "lower"; "lstrip"; "maketrans";
    "partition"; "replace"; "rfind"; "rindex"; "rjust"; "rpartition";
    "rsplit"; "rstrip"; "split"; "splitlines"; "startswith"; "strip";
    "swapcase"; "title"; "translate"; "upper"; "zfill" ].

(** [o.a].  On a data frame a method wins over a column of the same name,
    and a name that is neither raises AttributeError. *)
Definition getattr (o : pyobj) (a : string) : M pyobj :=
  match o with
  | PDataFrame d =>
      if mem a df_methods then ret (PMethod o a)
      else if String.eqb a "write" then ret (PWriter d [])
      else if mem a (columns d) then ret (PColumn (CName a))
      else raise (AttributeError "DataFrame" a)
  | PWriter _ _ =>
      if mem a ["partitionBy"; "parquet"] then ret (PMethod o a)
      else raise (AttributeError "DataFrameWriter" a)
  | PSession =>
      if String.eqb a "read" then ret PReader
      else raise (AttributeError "SparkSession" a)
  | PReader =>
      if String.eqb a "json" then ret (PMethod o a)
      else raise (AttributeError "DataFrameReader" a)
  | PBuilder =>
      if mem a ["config"; "getOrCreate"] then ret (PMethod o a)
      else raise (AttributeError "Builder" a)
  | PColumn _ =>
      if String.eqb a "alias" then ret (PMethod o a)
      else raise (AttributeError "Column" a)
  | PStr _ =>
      if mem a str_attrs then ret (PMethod o a)
      else raise (AttributeError "str" a)
  | PGlobal g =>
      if String.eqb g "os" && mem a ["path"; "environ"] then ret (PGlobal (g +:+ "." +:+ a))
      else if String.eqb g "os.path" && String.eqb a "join" then ret (PGlobal "os.path.join")
      else if String.eqb g "SparkSession" && String.eqb a "builder" then ret PBuilder
      else raise (AttributeError g a)
  | _ => raise (AttributeError (type_name o) a)
  end.

(** *** Calls *)

(** The engine's Python interface is not part of the script; its methods
    are modelled with the parameters their definitions declare. *)

(** Keyword arguments are bound to the parameters of the callee; a
    keyword that names none of them is a TypeError. *)
Definition bind_keywords (f : string) (params : list string)
    (kws : list (string * pyobj)) : M unit :=
  match List.filter (fun kw => negb (mem (fst kw) params)) kws with
  | [] => ret tt
  | (k, _) :: _ =>
      raise (TypeError (f +:+ "() got an unexpected keyword argument '" +:+ k +:+ "'"))
  end.

(** [DataFrame.show(self, n=20, truncate=True, vertical=False)] *)
Definition show_params : list string := [ "n"; "truncate"; "vertical" ].

(** The engine's SQL functions of one column that the script names. *)
Definition sql_functions : list string :=
  [ "year"; "month"; "dayofmonth"; "hour"; "weekofyear"; "dayofweek" ].

(** An argument naming a column: a string is a column name. *)
Definition as_column (o : pyobj) : M Column :=
  match o with
  | PColumn c => ret c
  | PStr s => ret (CName s)
  | _ => raise (TypeError ("Invalid argument, not a string or column: " +:+ type_name o))
  end.

Fixpoint as_columns (os : list pyobj) : M (list Column) :=
  match os with
  | [] => ret []
  | o :: os' => c <- as_column o ;; cs <- as_columns os' ;; ret (c :: cs)
  end.

Fixpoint as_strings (os : list pyobj) : M (list string) :=
  match os with
  | [] => ret []
  | PStr x :: os' => xs <- as_strings os' ;; ret (x :: xs)
  | o :: _ => raise (TypeError ("expected str, got " +:+ type_name o))
  end.

(** The first column of [cs] the frame cannot resolve. *)
Definition unresolved (cols : list string) (cs : list Column) : option Column :=
  List.find (fun c => negb (resolves cols c)) cs.

(** The first column name in [c] the frame does not have. *)
Fixpoint missing_name (cols : list string) (c : Column) : string :=
  match c with
  | CName x => if has_column cols x then "" else x
  | CLit _ | CMonoId => ""
  | CEq a b | CAnd a b =>
      if String.eqb (missing_name cols a) "" then missing_name cols b
      else missing_name cols a
  | CFn _ a | CUdf _ a | CAlias a _ => missing_name cols a
  end.

Definition analysis_error {A} (c : Column) (cols : list string) : M A :=
  raise (AnalysisException
           ("cannot resolve '" +:+ missing_name cols c +:+ "' given input columns")).

(** [spark.read.json(path)]: the collection stored under [path], the
    path being the glob the script hands to the reader.  Storage holds,
    for a path, the frame the reader yields for it. *)
Definition read_json (path : string) : M pyobj :=
  emit (ERead path) ;;
  fun s => match fs s !! path with
           | Some t => (Ok (PDataFrame (table t)), s)
           | None => (Raise (AnalysisException ("Path does not exist: " +:+ path)), s)
           end.

(** What the writer checks before it touches the destination: the
    frame has a column, every partition column resolves in it, some
    column is left beside them, and no two columns have one name. *)
Fixpoint distinct_names (cols : list string) : bool :=
  match cols with
  | [] => true
  | c :: cols' => negb (has_column cols' c) && distinct_names cols'
  end.

Definition write_refused (d : DataFrame) (parts : list string) : option exn :=
  if Nat.eqb (length (columns d)) 0
  then Some (AnalysisException "Datasource does not support writing empty schemas")
  else
  match List.find (fun p => negb (has_column (columns d) p)) parts with
  | Some p => Some (AnalysisException ("Partition column `" +:+ p +:+ "` not found in schema"))
  | None =>
      if negb (Nat.eqb (length parts) 0) && Nat.eqb (length parts) (length (columns d))
      then Some (AnalysisException "Cannot use all columns for partition columns")
      else if distinct_names (columns d) then None
      else Some (AnalysisException "Found duplicate column(s) when inserting into the path")
  end.

(** [writer.parquet(path, mode)] *)
Definition save (d : DataFrame) (parts : list string) (path mode : string) : M unit :=
  match write_refused d parts with
  | Some e => raise e
  | None =>
      emit (EWrite path mode) ;;
      fun s =>
        let put t := (Ok tt, mkState (<[path := t]> (fs s)) (config s) (environ s)
                                     (frame s) (trace s)) in
        let new := mkStored parts d in
        if String.eqb mode "overwrite" then put new
        else if String.eqb mode "append" then
          match fs s !! path with
          | Some old => put (mkStored (partition_by old)
                               (mkDF (columns (table old)) (rows (table old) ++ rows d)))
          | None => put new
          end
        else if String.eqb mode "ignore" then
          match fs s !! path with
          | Some _ => (Ok tt, s)
          | None => put new
          end
        else if mem mode ["error"; "errorifexists"; "default"] then
          match fs s !! path with
          | Some _ => (Raise (AnalysisException ("path " +:+ path +:+ " already exists")), s)
          | None => put new
          end
        else (Raise (ValueError ("Unknown save mode: " +:+ mode)), s)
  end.

Definition bad_call {A} (what : string) : M A :=
  raise (TypeError ("bad arguments in call to " +:+ what)).

Section Calls.
Context (E : Engine).

(** [d.m(args, kws)] for a data frame [d] *)
Definition df_call (d : DataFrame) (m : string) (args : list pyobj)
    (kws : list (string * pyobj)) : M pyobj :=
  if String.eqb m "select" then
    cs <- as_columns args ;;
    match unresolved (columns d) cs with
    | Some c => analysis_error c (columns d)
    | None => ret (PDataFrame (df_select E cs d))
    end
  else if String.eqb m "filter" then
    match args with
    | [PColumn c] =>
        if resolves (columns d) c then ret (PDataFrame (df_filter E c d))
        else analysis_error c (columns d)
    | _ => bad_call "filter"
    end
  else if String.eqb m "dropDuplicates" then
    match args with
    | [] => ret (PDataFrame (df_dropDuplicates d))
    | _ => bad_call "dropDuplicates"
    end
  else if String.eqb m "withColumn" then
    match args with
    | [PStr n; PColumn c] =>
        if resolves (columns d) c then ret (PDataFrame (df_withColumn E n c d))
        else analysis_error c (columns d)
    | _ => bad_call "withColumn"
    end
  else if String.eqb m "join" then
    match args with
    | [PDataFrame d2; PColumn on] =>
        if resolves (columns d ++ columns d2) on then ret (PDataFrame (df_join E d d2 on))
        else analysis_error on (columns d ++ columns d2)
    | [PDataFrame _; _] => bad_call "join"
    | [o; _] => raise (AttributeError (type_name o) "_jdf")
    | _ => bad_call "join"
    end
  else if String.eqb m "show" then
    bind_keywords "show" show_params kws ;;
    match args with
    | [] => emit (EShow 20 (take 20 (rows d))) ;; ret PNone
    | [PInt n] => emit (EShow n (take (Z.to_nat n) (rows d))) ;; ret PNone
    | _ => bad_call "show"
    end
  else if String.eqb m "printSchema" then
    match args with
    | [] => emit (EPrintSchema (columns d)) ;; ret PNone
    | _ => bad_call "printSchema"
    end
  else if String.eqb m "createOrReplaceTempView" then
    match args with
    | [PStr v] => emit (ETempView v d) ;; ret PNone
    | _ => bad_call "createOrReplaceTempView"
    end
  else raise (AttributeError "DataFrame" m).

(** [f(args, kws)] *)
Definition call (f : pyobj) (args : list pyobj) (kws : list (string * pyobj)) : M pyobj :=
  match f with
  | PGlobal g =>
      if String.eqb g "col" then
        match args with
        | [PStr x] => ret (PColumn (CName x))
        | [PColumn _] =>
            (* [col] takes the name of a column.  Handed a column, the
               Python interface fails while it passes the argument on,
               before the engine sees it: PySpark 3 with this TypeError
               (2.4 with an error of the gateway). *)
            raise (TypeError "'Column' object is not callable")
        | _ => bad_call "col"
        end
      else if String.eqb g "udf" then
        match args with
        | [PLambda l] => ret (PUdf l)
        | _ => bad_call "udf"
        end
      else if String.eqb g "os.path.join" then
        match args with
        | [PStr a; PStr b] => ret (PStr (path_join a b))
        | _ => bad_call "os.path.join"
        end
      else if mem g sql_functions then
        match args with
        | [a] => c <- as_column a ;; ret (PColumn (CFn g c))
        | _ => bad_call g
        end
      else if String.eqb g "monotonically_increasing_id" then
        match args with
        | [] => ret (PColumn CMonoId)
        | _ => bad_call g
        end
      else raise (TypeError ("'" +:+ g +:+ "' is not called by the script"))
  | PUdf l =>
      match args with
      | [a] => c <- as_column a ;; ret (PColumn (CUdf l c))
      | _ => bad_call "udf"
      end
  | PMethod PBuilder m =>
      if String.eqb m "config" then ret PBuilder else ret PSession
  | PMethod PReader _ =>
      match args with
      | [PStr path] => read_json path
      | _ => bad_call "json"
      end
  | PMethod (PDataFrame d) m => df_call d m args kws
  | PMethod (PWriter d parts) m =>
      if String.eqb m "partitionBy" then
        ps <- as_strings args ;; ret (PWriter d ps)
      else
        match args with
        | [PStr path; PStr mode] => save d parts path mode ;; ret PNone
        | _ => bad_call "parquet"
        end
  | PMethod (PColumn c) _ =>
      match args with
      | [PStr n] => ret (PColumn (CAlias c n))
      | _ => bad_call "alias"
      end
  | _ => raise (TypeError ("'" +:+ type_name f +:+ "' object is not callable"))
  end.
End Calls.

(** ** The script *)

Section Script.
Context (E : Engine).

(** [os.path.join(<var>, file)], as the five writes build their
    destination: the name [var] is evaluated after [os.path.join]. *)
Definition joined_path (var file : string) : M pyobj :=
  o <- name "os" ;;
  p <- getattr o "path" ;;
  j <- getattr p "join" ;;
  root <- name var ;;
  call E j [root; PStr file] [].

(** Lines 9-13: [config] is the parsed [dl.cfg]; the two credentials
    are copied into the environment. *)
Definition module_body : M unit :=
  (* 12 *)
  c <- name "config" ;;
  sec <- getitem c (PStr "AWS") ;;
  v <- getitem sec (PStr "AWS_ACCESS_KEY_ID") ;;
  o <- name "os" ;;
  env <- getattr o "environ" ;;
  setitem env (PStr "AWS_ACCESS_KEY_ID") v ;;
  (* 13 *)
  c <- name "config" ;;
  sec <- getitem c (PStr "AWS") ;;
  v <- getitem sec (PStr "AWS_SECRET_ACCESS_KEY") ;;
  o <- name "os" ;;
  env <- getattr o "environ" ;;
  setitem env (PStr "AWS_SECRET_ACCESS_KEY") v.

(** Lines 16-24 *)
Definition create_spark_session : M pyobj :=
  enter "create_spark_session" [] (
    (* 20-23 *)
    c <- name "SparkSession" ;;
    b <- getattr c "builder" ;;
    m <- getattr b "config" ;;
    b <- call E m [PStr "spark.jars.packages";
                   PStr "org.apache.hadoop:hadoop-aws:2.7.0"] [] ;;
    m <- getattr b "getOrCreate" ;;
    spark <- call E m [] [] ;;
    assign "spark" spark ;;
    (* 24 *)
    name "spark").

(** *** process_song_data, lines 27-68 *)

Definition song_line42 : M unit :=
  a <- name "input_data" ;;
  v <- py_add a (PStr "song_data/*/*/*.json") ;;
  assign "song_data" v.

Definition song_line45 : M unit :=
  sp <- name "spark" ;;
  r <- getattr sp "read" ;;
  m <- getattr r "json" ;;
  d <- call E m [PStr "song_data"] [] ;;
  assign "df" d.

Definition song_line48 : M unit :=
  d <- name "df" ;;
  m <- getattr d "select" ;;
  t <- call E m [PStr "song_id"; PStr "title"; PStr "artist_id"; PStr "year";
                 PStr "duration"] [] ;;
  m <- getattr t "dropDuplicates" ;;
  t <- call E m [] [] ;;
  assign "songs_table" t.

Definition song_line51 : M unit :=
  t <- name "songs_table" ;;
  m <- getattr t "printSchema" ;;
  call E m [] [] ;; ret tt.

Definition song_line52 : M unit :=
  t <- name "songs_tables" ;;
  m <- getattr t "show" ;;
  call E m [PInt 5] [("truncate", PBool false)] ;; ret tt.

Definition song_line55 : M unit :=
  t <- name "songs_table" ;;
  m <- getattr t "createOrReplaceTempView" ;;
  call E m [PStr "songs"] [] ;; ret tt.

Definition song_line58 : M unit :=
  t <- name "songs_table" ;;
  w <- getattr t "write" ;;
  m <- getattr w "partitionBy" ;;
  w <- call E m [PStr "year"; PStr "artist_id"] [] ;;
  m <- getattr w "parquet" ;;
  path <- joined_path "output_data" "songs_table.parquet" ;;
  call E m [path; PStr "overwrite"] [] ;; ret tt.

Definition song_line61 : M unit :=
  d <- name "df" ;;
  m <- getattr d "select" ;;
  t <- call E m [PStr "artist_id"; PStr "artist_name"; PStr "artist_location";
                 PStr "artist_latitude"; PStr "artist_longitude"] [] ;;
  m <- getattr t "dropDuplicates" ;;
  t <- call E m [] [] ;;
  assign "artists_table" t.

Definition song_line64 : M unit :=
  t <- name "artists_table" ;;
  m <- getattr t "printSchema" ;;
  call E m [] [] ;; ret tt.

Definition song_line65 : M unit :=
  t <- name "artist_table" ;;
  m <- getattr t "show" ;;
  call E m [PInt 5] [("truncated", PBool false)] ;; ret tt.

Definition song_line68 : M unit :=
  t <- name "artists_table" ;;
  w <- getattr t "write" ;;
  m <- getattr w "parquet" ;;
  path <- joined_path "output_data" "artists_table.parquet" ;;
  call E m [path; PStr "overwrite"] [] ;; ret tt.

Definition process_song_data (spark input_data output_data : pyobj) : M unit :=
  enter "process_song_data"
    [("spark", spark); ("input_data", input_data); ("output_data", output_data)] (
    song_line42 ;; song_line45 ;; song_line48 ;; song_line51 ;; song_line52 ;;
    song_line55 ;; song_line58 ;; song_line61 ;; song_line64 ;; song_line65 ;;
    song_line68).

(** *** process_log_data, lines 71-155 *)

Definition log_line88 : M unit :=
  a <- name "input_data" ;;
  v <- py_add a (PStr "log_data/*.json") ;;
  assign "log_data" v.

Definition log_line91 : M unit :=
  sp <- name "spark" ;;
  r <- getattr sp "read" ;;
  m <- getattr r "json" ;;
  p <- name "log_data" ;;
  d <- call E m [p] [] ;;
  assign "df" d.

Definition log_line94 : M unit :=
  d <- name "df" ;;
  m <- getattr d "filter" ;;
  d' <- name "df" ;;
  c <- getattr d' "page" ;;
  cond <- py_eq c (PStr "NextSong") ;;
  r <- call E m [cond] [] ;;
  assign "df" r.

Definition log_line97 : M unit :=
  d <- name "df" ;;
  m <- getattr d "select" ;;
  t <- call E m [PStr "userId"; PStr "firstName"; PStr "lastName"; PStr "gender";
                 PStr "level"] [] ;;
  m <- getattr t "dropDuplicates" ;;
  t <- call E m [] [] ;;
  assign "users_table" t.

(** [<table>.printSchema()] *)
Definition print_schema (table : string) : M unit :=
  t <- name table ;;
  m <- getattr t "printSchema" ;;
  call E m [] [] ;; ret tt.

(** [<table>.show(5,truncated=False)], as lines 99, 125 and 151 spell it *)
Definition show_truncated (table : string) : M unit :=
  t <- name table ;;
  m <- getattr t "show" ;;
  call E m [PInt 5] [("truncated", PBool false)] ;; ret tt.

Definition log_line98 : M unit := print_schema "users_table".
Definition log_line99 : M unit := show_truncated "users_table".

Definition log_line103 : M unit :=
  t <- name "users_table" ;;
  w <- getattr t "write" ;;
  m <- getattr w "parquet" ;;
  path <- joined_path "output" "users_table.parquet" ;;
  call E m [path; PStr "overwrite"] [] ;; ret tt.

Definition log_line106 : M unit :=
  u <- name "udf" ;;
  f <- call E u [PLambda Lambda106] [] ;;
  assign "get_timestamp" f.

(** [df = df.withColumn(<column>, <fn>(df.ts))], lines 107 and 111 *)
Definition with_ts_column (column fn : string) : M unit :=
  d <- name "df" ;;
  m <- getattr d "withColumn" ;;
  g <- name fn ;;
  d' <- name "df" ;;
  c <- getattr d' "ts" ;;
  a <- call E g [c] [] ;;
  r <- call E m [PStr column; a] [] ;;
  assign "df" r.

Definition log_line107 : M unit := with_ts_column "timestamp" "get_timestamp".

Definition log_line110 : M unit :=
  u <- name "udf" ;;
  f <- call E u [PLambda Lambda110] [] ;;
  assign "get_datetime" f.

Definition log_line111 : M unit := with_ts_column "date" "get_datetime".

(** [<t>.withColumn(<column>, <fn>('datetime'))], lines 116-121 *)
Definition with_fn_column (t : pyobj) (column fn : string) : M pyobj :=
  m <- getattr t "withColumn" ;;
  f <- name fn ;;
  c <- call E f [PStr "datetime"] [] ;;
  call E m [PStr column; c] [].

Definition log_line114 : M unit :=
  d <- name "df" ;;
  m <- getattr d "select" ;;
  t <- call E m [PStr "datetime"] [] ;;
  (* 115 *)
  m <- getattr t "withColumn" ;;
  d' <- name "df" ;;
  c <- getattr d' "datetime" ;;
  t <- call E m [PStr "start_time"; c] [] ;;
  (* 116-121 *)
  t <- with_fn_column t "hour" "hour" ;;
  t <- with_fn_column t "day" "dayofmonth" ;;
  t <- with_fn_column t "week" "weekofyear" ;;
  t <- with_fn_column t "month" "month" ;;
  t <- with_fn_column t "year" "year" ;;
  t <- with_fn_column t "weekday" "dayofweek" ;;
  (* 122 *)
  m <- getattr t "dropDuplicates" ;;
  t <- call E m [] [] ;;
  assign "time_table" t.

Definition log_line124 : M unit := print_schema "time_table".
Definition log_line125 : M unit := show_truncated "time_table".

Definition log_line129 : M unit :=
  t <- name "time_table" ;;
  w <- getattr t "write" ;;
  m <- getattr w "parquet" ;;
  path <- joined_path "output" "time_table.parquet" ;;
  call E m [path; PStr "overwrite"] [] ;; ret tt.

Definition log_line132 : M unit :=
  a <- name "input_data" ;;
  v <- py_add a (PStr "song_data/*/*/*/*.json") ;;
  assign "song_df" v.

(** [col(<var>.<attr>)] *)
Definition col_of_attr (var attr : string) : M pyobj :=
  f <- name "col" ;;
  o <- name var ;;
  a <- getattr o attr ;;
  call E f [a] [].

(** Line 135.  [&] binds tighter than [==], so the condition is the
    chained comparison [A == (B & C) == D]: [A == X and X == D] with
    [X = B & C] evaluated once.  The operands are
    evaluated left to right, [col(df.artist)] first. *)
Definition log_line135 : M unit :=
  d <- name "df" ;;
  m <- getattr d "join" ;;
  other <- name "song_df" ;;
  a <- col_of_attr "df" "artist" ;;
  b <- col_of_attr "song_df" "artist_id" ;;
  c <- col_of_attr "df" "song" ;;
  x <- py_and b c ;;
  left <- py_eq a x ;;
  continue <- py_truth left ;;
  cond <- (if continue : bool
           then (dd <- col_of_attr "song_df" "title" ;; py_eq x dd)
           else ret left) ;;
  r <- call E m [other; cond] [] ;;
  assign "join_table" r.

(** [col(<c>).alias(<a>)] *)
Definition col_alias (c a : string) : M pyobj :=
  f <- name "col" ;;
  x <- call E f [PStr c] [] ;;
  m <- getattr x "alias" ;;
  call E m [PStr a] [].

(** [<fn>(<c>).alias(<a>)] *)
Definition fn_alias (fn c a : string) : M pyobj :=
  f <- name fn ;;
  x <- call E f [PStr c] [] ;;
  m <- getattr x "alias" ;;
  call E m [PStr a] [].

Definition log_line137 : M unit :=
  j <- name "join_table" ;;
  m <- getattr j "select" ;;
  c1 <- col_alias "join_table.datetime" "start_time" ;;
  c2 <- col_alias "join_table.userId" "user_id" ;;
  c3 <- col_alias "join_table.level" "level" ;;
  c4 <- col_alias "join_table.song_id" "song_id" ;;
  c5 <- col_alias "join_table.artist_id" "artist_id" ;;
  c6 <- col_alias "join_table.sessionId" "session_id" ;;
  c7 <- col_alias "join_table.location" "location" ;;
  c8 <- col_alias "join_table.userAgent" "user_agent" ;;
  c9 <- fn_alias "year" "join_table.datetime" "year" ;;
  c10 <- fn_alias "month" "join_table.datetime" "month" ;;
  t <- call E m [c1; c2; c3; c4; c5; c6; c7; c8; c9; c10] [] ;;
  (* 148 *)
  m <- getattr t "withColumn" ;;
  f <- name "monotonically_increasing_id" ;;
  c <- call E f [] [] ;;
  t <- call E m [PStr "songplay_id"; c] [] ;;
  assign "songplays_table" t.

Definition log_line150 : M unit := print_schema "songplays_table".
Definition log_line151 : M unit := show_truncated "songplays_table".

Definition log_line155 : M unit :=
  t <- name "songplays_table" ;;
  w <- getattr t "write" ;;
  m <- getattr w "partitionBy" ;;
  w <- call E m [PStr "year"; PStr "month"] [] ;;
  m <- getattr w "parquet" ;;
  path <- joined_path "output_data" "songplays_table.parquet" ;;
  call E m [path; PStr "overwrite"] [] ;; ret tt.

Definition process_log_data (spark input_data output_data : pyobj) : M unit :=
  enter "process_log_data"
    [("spark", spark); ("input_data", input_data); ("output_data", output_data)] (
    log_line88 ;; log_line91 ;; log_line94 ;; log_line97 ;; log_line98 ;;
    log_line99 ;; log_line103 ;; log_line106 ;; log_line107 ;; log_line110 ;;
    log_line111 ;; log_line114 ;; log_line124 ;; log_line125 ;; log_line129 ;;
    log_line132 ;; log_line135 ;; log_line137 ;; log_line150 ;; log_line151 ;;
    log_line155).

(** *** main, lines 158-164 *)

Definition main : M unit :=
  enter "main" [] (
    (* 159 *)
    name "create_spark_session" ;;
    spark <- create_spark_session ;;
    assign "spark" spark ;;
    (* 160 *)
    assign "input_data" (PStr "s3a://udacity-dend/") ;;
    (* 161 *)
    c <- name "config" ;;
    sec <- getitem c (PStr "S3") ;;
    out <- getitem sec (PStr "OUTPUT_DATA") ;;
    assign "output_data" out ;;
    (* 163 is a comment: process_song_data is not called *)
    (* 164 *)
    name "process_log_data" ;;
    a1 <- name "spark" ;;
    a2 <- name "input_data" ;;
    a3 <- name "output_data" ;;
    process_log_data a1 a2 a3).

(** Running the file as a script: the module body, then [main()]
    (lines 167-168). *)
Definition script : M unit := module_body ;; main.
End Script.

(** One run of the job as a process: it starts from the storage and the
    configuration, with an empty environment, frame and trace. *)
Definition start (store : gmap string stored)
    (cfg : gmap string (gmap string string)) : state :=
  mkState store cfg ∅ [] [].

Definition run (E : Engine) (cfg : gmap string (gmap string string))
    (store : gmap string stored) : gmap string stored :=
  fs (snd (script E (start store cfg))).

(** * Vocabulary of the proofs *)

(** ** Events and methods *)

(** Events that are neither a call of a function of the script nor a
    write to storage. *)
Definition is_observation (ev : event) : bool :=
  match ev with
  | ECall _ | EWrite _ _ => false
  | _ => true
  end.

(** A bound method that writes to storage when called. *)
Definition writes (f : pyobj) : bool :=
  match f with
  | PMethod (PWriter _ _) m => negb (String.eqb m "partitionBy")
  | _ => false
  end.

(** ** Frames and storage along a run *)

Section Frame_vocabulary.
(** The names the running function may have bound so far. *)
Context (names : list string).

(** The frame of [s] binds no name outside [names]. *)
Definition bound_in (s : state) : Prop :=
  forall x, mem x names = false -> local s x = None.

(** From [s] to [s']: storage and configuration are the same, the frame
    binds only [names], and the trace grew by observations only. *)
Record steady (s s' : state) : Prop := {
  steady_fs : fs s' = fs s;
  steady_config : config s' = config s;
  steady_frame : bound_in s';
  steady_trace : exists evs, trace s' = trace s ++ evs /\ forallb is_observation evs = true
}.

(** [m] is tame: run from a state whose frame binds only [names], it
    is steady, and what it returns satisfies [R]. *)
Definition tame {A} (m : M A) (R : A -> Prop) : Prop :=
  forall s, bound_in s -> steady s (snd (m s)) /\ forall a, fst (m s) = Ok a -> R a.

(** [m] raises, whatever the state. *)
Definition aborts {A} (m : M A) : Prop :=
  forall s, bound_in s -> exists e, fst (m s) = Raise e.
End Frame_vocabulary.

(** The locals [process_song_data] can have bound when line 52 runs. *)
Definition song_names : list string :=
  [ "spark"; "input_data"; "output_data"; "song_data"; "df"; "songs_table" ].

(** The locals [process_log_data] can have bound when line 99 runs. *)
Definition log_names : list string :=
  [ "spark"; "input_data"; "output_data"; "log_data"; "df"; "users_table" ].

(** Every local [process_log_data] assigns. *)
Definition log_all_names : list string :=
  [ "spark"; "input_data"; "output_data"; "log_data"; "df"; "users_table";
    "get_timestamp"; "get_datetime"; "time_table"; "song_df"; "join_table";
    "songplays_table" ].

(** ** Tables *)

Definition has_columns (d : DataFrame) (cols : list string) : bool :=
  forallb (fun c => mem c (columns d)) cols.

(** The columns line 48 selects. *)
Definition songs_cols : list string :=
  [ "song_id"; "title"; "artist_id"; "year"; "duration" ].

(** The columns line 97 selects. *)
Definition users_cols : list string :=
  [ "userId"; "firstName"; "lastName"; "gender"; "level" ].

(** The condition of line 94. *)
Definition is_next_song : Column := CEq (CName "page") (CLit (VStr "NextSong")).

(** The path line 88 builds. *)
Definition log_path (input_data : string) : string := input_data +:+ "log_data/*.json".

(** [select(cols).dropDuplicates()] *)
Definition distinct_projection (E : Engine) (cols : list string) (d : DataFrame) : DataFrame :=
  df_dropDuplicates (df_select E (map CName cols) d).

(** The cells of record [r] under the columns [cols]. *)
Definition project (cols : list string) (d : DataFrame) (r : row) : row :=
  map (field (columns d) r) cols.

(** ** Locals a statement does not look at *)

Section Blind_vocabulary.
(** The locals two runs may disagree on. *)
Context (hidden : list string).

(** Two states that are the same but for the hidden locals. *)
Definition agree (s1 s2 : state) : Prop :=
  fs s1 = fs s2 /\ config s1 = config s2 /\ environ s1 = environ s2 /\
  trace s1 = trace s2 /\
  forall x, mem x hidden = false -> local s1 x = local s2 x.

(** [m] is blind to the hidden locals: from states that agree it
    returns the same result and states that agree. *)
Definition blind {A} (m : M A) : Prop :=
  forall s1 s2, agree s1 s2 ->
    fst (m s1) = fst (m s2) /\ agree (snd (m s1)) (snd (m s2)).
End Blind_vocabulary.

(** The locals of [process_song_data] that depend on [input_data]. *)
Definition song_hidden : list string := [ "input_data"; "song_data" ].

(** The functions of the script a trace enters, in order. *)
Definition calls (evs : list event) : list string :=
  flat_map (fun ev => match ev with ECall f => [f] | _ => [] end) evs.

(** The destinations a trace writes, in order. *)
Definition written (evs : list event) : list string :=
  flat_map (fun ev => match ev with EWrite p _ => [p] | _ => [] end) evs.

(** The output location line 161 reads from the configuration. *)
Definition output_location (s : state) : option string :=
  match config s !! "S3" with
  | Some kv => kv !! "OUTPUT_DATA"
  | None => None
  end.

(** [m] leaves storage, the configuration and the trace alone. *)
Definition inert {A} (m : M A) : Prop :=
  forall s, fs (snd (m s)) = fs s /\ trace (snd (m s)) = trace s /\
            config (snd (m s)) = config s.

(** [<table>.write.parquet(os.path.join(<var>, <file>), 'overwrite')],
    lines 68, 103 and 129 *)
Definition write_plain (E : Engine) (table var file : string) : M unit :=
  t <- name table ;;
  w <- getattr t "write" ;;
  m <- getattr w "parquet" ;;
  path <- joined_path E var file ;;
  call E m [path; PStr "overwrite"] [] ;; ret tt.

(** [<table>.write.partitionBy(<p1>, <p2>).parquet(os.path.join(<var>,
    <file>), 'overwrite')], lines 58 and 155 *)
Definition write_partitioned (E : Engine) (table p1 p2 var file : string) : M unit :=
  t <- name table ;;
  w <- getattr t "write" ;;
  m <- getattr w "partitionBy" ;;
  w <- call E m [PStr p1; PStr p2] [] ;;
  m <- getattr w "parquet" ;;
  path <- joined_path E var file ;;
  call E m [path; PStr "overwrite"] [] ;; ret tt.

(** ** A small lake *)

(** An engine whose scalar functions return their argument. *)
Definition identity_engine : Engine :=
  {| sql_fn := fun _ v => v; py_lambda := fun _ v => v |}.

Definition log_columns : list string :=
  [ "artist"; "firstName"; "gender"; "lastName"; "level"; "location"; "page";
    "sessionId"; "song"; "ts"; "userAgent"; "userId" ].

(** User 8 plays a song. *)
Definition play (artist song level : string) (ts : Z) : row :=
  [ VStr artist; VStr "Ann"; VStr "F"; VStr "Lee"; VStr level; VStr "Tupelo, MS";
    VStr "NextSong"; VLong 101; VStr song; VLong ts; VStr "Mozilla/5.0"; VStr "8" ].

(** User 9 opens the home page. *)
Definition home_visit : row :=
  [ VNull; VStr "Bob"; VStr "M"; VStr "Ray"; VStr "paid"; VStr "Tupelo, MS";
    VStr "Home"; VLong 102; VNull; VLong 1541903636797; VStr "Mozilla/5.0"; VStr "9" ].

Definition elvis_play : row := play "Elvis Presley" "Hound Dog" "free" 1541903636796.

Definition catalog_columns : list string :=
  [ "artist_id"; "artist_latitude"; "artist_location"; "artist_longitude";
    "artist_name"; "duration"; "num_songs"; "song_id"; "title"; "year" ].

(** The catalog record of the song; its duration is 136.0. *)
Definition hound_dog : row :=
  [ VStr "ARELVIS"; VNull; VStr "Tupelo, MS"; VNull; VStr "Elvis Presley";
    VDouble 4639059459935535104; VLong 1; VStr "SOHOUND"; VStr "Hound Dog"; VLong 1956 ].

(** The input root of line 160. *)
Definition lake_input : string := "s3a://udacity-dend/".

(** An output root. *)
Definition lake_output : string := "s3a://sparkify-lake/".

(** Storage holding a log and a catalog, the catalog under every path the
    script names for it. *)
Definition lake (log catalog : list row) : gmap string stored :=
  <[ "s3a://udacity-dend/log_data/*.json" := mkStored [] (mkDF log_columns log) ]>
  (<[ "song_data" := mkStored [] (mkDF catalog_columns catalog) ]>
  (<[ "s3a://udacity-dend/song_data/*/*/*.json" := mkStored [] (mkDF catalog_columns catalog) ]>
  (<[ "s3a://udacity-dend/song_data/*/*/*/*.json" := mkStored [] (mkDF catalog_columns catalog) ]>
   ∅))).

Definition dl_cfg : gmap string (gmap string string) :=
  <[ "AWS" := <[ "AWS_ACCESS_KEY_ID" := "key" ]> (<[ "AWS_SECRET_ACCESS_KEY" := "secret" ]> ∅) ]>
  (<[ "S3" := <[ "OUTPUT_DATA" := lake_output ]> ∅ ]> ∅).

(** The frame [process_log_data] and [process_song_data] start in. *)
Definition branch_frame (s : state) (input_data output_data : string) : state :=
  mkState (fs s) (config s) (environ s)
    [ ("spark", PSession); ("input_data", PStr input_data);
      ("output_data", PStr output_data) ]
    (trace s).

(** One matched play: the log has the Elvis event, the catalog the song. *)
Definition one_play : state := start (lake [elvis_play] [hound_dog]) dl_cfg.

(** A play and a visit of the home page. *)
Definition play_and_visit : state := start (lake [elvis_play; home_visit] [hound_dog]) dl_cfg.

(** User 8 plays as a free user, then twice as a paid one. *)
Definition level_change : state :=
  start (lake [ play "Elvis Presley" "Hound Dog" "free" 1541903636796;
                play "Elvis Presley" "Jailhouse Rock" "paid" 1541990036796;
                play "Elvis Presley" "Hound Dog" "paid" 1541990236796;
                home_visit ] [hound_dog]) dl_cfg.

(** The same catalog record twice. *)
Definition twin_records : state := start (lake [elvis_play] [hound_dog; hound_dog]) dl_cfg.

(** Storage with no catalog and no log. *)
Definition empty_lake : state := start ∅ dl_cfg.

(** A frame in which line 58 can run, over storage that already holds a
    songs table. *)
Definition before_line58 : state :=
  mkState
    (<[ path_join lake_output "songs_table.parquet" :=
          mkStored [] (mkDF songs_cols [[VStr "SOOLD"; VStr "Old"; VStr "AROLD"; VLong 1900;
                                         VDouble 0]]) ]> ∅)
    dl_cfg ∅
    [ ("songs_table",
       PDataFrame (mkDF songs_cols [[VStr "SOHOUND"; VStr "Hound Dog"; VStr "ARELVIS";
                                     VLong 1956; VDouble 4639059459935535104]]));
      ("output_data", PStr lake_output) ]
    [].

(** The state in which line 103 would run, had line 99 not raised. *)
Definition before_line103 : state :=
  snd ((log_line88 ;; log_line91 identity_engine ;; log_line94 identity_engine ;;
        log_line97 identity_engine ;; log_line98 identity_engine)
         (branch_frame one_play lake_input lake_output)).

(** ** The rest of the script *)

(** Every local [process_song_data] assigns. *)
Definition song_all_names : list string :=
  [ "spark"; "input_data"; "output_data"; "song_data"; "df"; "songs_table";
    "artists_table" ].

(** The locals [process_log_data] can have bound when line 135 runs. *)
Definition log_names_at_135 : list string :=
  [ "spark"; "input_data"; "output_data"; "log_data"; "df"; "users_table";
    "get_timestamp"; "get_datetime"; "time_table"; "song_df" ].

(** The state after [table] has been written to [path] with mode
    ['overwrite']. *)
Definition after_write (s : state) (path : string) (t : stored) : state :=
  mkState (<[path := t]> (fs s)) (config s) (environ s) (frame s)
          (trace s ++ [EWrite path "overwrite"]).

(** The file names of lines 58, 68, 103, 129 and 155. *)
Definition table_files : list string :=
  [ "songs_table.parquet"; "artists_table.parquet"; "users_table.parquet";
    "time_table.parquet"; "songplays_table.parquet" ].

(** What [os.path.join] puts between a root and a relative name. *)
Definition separator (root : string) : string :=
  if String.eqb root "" || ends_with_slash root then "" else "/".

Section Alike_vocabulary.
(** The names the running function may have bound, and the locals two
    runs may disagree on. *)
Context (names hidden : list string).

(** From two states that agree off the hidden locals and bind only
    [names], [m] returns the same result and states that agree. *)
Definition alike {A} (m : M A) : Prop :=
  forall s1 s2, agree hidden s1 s2 -> bound_in names s1 -> bound_in names s2 ->
    fst (m s1) = fst (m s2) /\ agree hidden (snd (m s1)) (snd (m s2)).
End Alike_vocabulary.

(** The message of the engine for a column it cannot resolve. *)
Definition cannot_resolve (c : string) : exn :=
  AnalysisException ("cannot resolve '" +:+ c +:+ "' given input columns").

(** The message of the engine for a path that holds nothing. *)
Definition path_does_not_exist (path : string) : exn :=
  AnalysisException ("Path does not exist: " +:+ path).

(** The frame lines 107 and 111 make of [d]. *)
Definition with_timestamp_and_date (E : Engine) (d : DataFrame) : DataFrame :=
  df_withColumn E "date" (CUdf Lambda110 (CName "ts"))
    (df_withColumn E "timestamp" (CUdf Lambda106 (CName "ts")) d).

(** The statements the time table depends on: lines 88-94 and 105-122. *)
Definition time_lines (E : Engine) : M unit :=
  log_line88 ;; log_line91 E ;; log_line94 E ;; log_line106 E ;; log_line107 E ;;
  log_line110 E ;; log_line111 E ;; log_line114 E.

(** The state in which line 52 runs on the catalog with the record
    twice. *)
Definition before_line52 : state :=
  snd ((song_line42 ;; song_line45 identity_engine ;; song_line48 identity_engine ;;
        song_line51 identity_engine)
         (branch_frame twin_records lake_input lake_output)).

(** A frame for line 135 in which [song_df] is the catalog as a data
    frame and not the path string of line 132. *)
Definition before_line135_with_catalog : state :=
  mkState (lake [elvis_play] [hound_dog]) dl_cfg ∅
    [ ("song_df", PDataFrame (mkDF catalog_columns [hound_dog]));
      ("df", PDataFrame (mkDF log_columns [elvis_play]));
      ("spark", PSession); ("input_data", PStr lake_input);
      ("output_data", PStr lake_output) ]
    [].

(** What an earlier job left at a destination. *)
Definition stale : stored :=
  mkStored [] (mkDF users_cols [[VStr "7"; VStr "Old"; VStr "User"; VStr "M"; VStr "paid"]]).

(** The lake of [one_play], with every destination under the output
    root already holding a table. *)
Definition stale_lake : gmap string stored :=
  foldr (fun file store => <[ path_join lake_output file := stale ]> store)
        (lake [elvis_play] [hound_dog]) table_files.

(** A configuration with the credentials and no output location. *)
Definition cfg_without_s3 : gmap string (gmap string string) :=
  <[ "AWS" := <[ "AWS_ACCESS_KEY_ID" := "key" ]> (<[ "AWS_SECRET_ACCESS_KEY" := "secret" ]> ∅) ]>
  ∅.

(** The state of [main] when line 164 makes its call, the configuration
    giving the output location [out]. *)
Definition at_line164 (s : state) (out : string) : state :=
  mkState (fs s) (config s) (environ s)
    [ ("output_data", PStr out); ("input_data", PStr "s3a://udacity-dend/");
      ("spark", PSession) ]
    (trace s ++ [ECall "main"; ECall "create_spark_session"]).

(** The state in which line 135 would run, had lines 98-129 been left
    out. *)
Definition before_line135 : state :=
  snd ((log_line88 ;; log_line91 identity_engine ;; log_line94 identity_engine ;;
        log_line97 identity_engine ;; log_line132)
         (branch_frame one_play lake_input lake_output)).

(** The log of [level_change] in another order, with a play repeated and
    without the visit of the home page. *)
Definition level_change_shuffled : state :=
  start (lake [ play "Elvis Presley" "Hound Dog" "paid" 1541990236796;
                play "Elvis Presley" "Hound Dog" "free" 1541903636796;
                play "Elvis Presley" "Jailhouse Rock" "paid" 1541990036796;
                play "Elvis Presley" "Hound Dog" "free" 1541903636796 ] [hound_dog]) dl_cfg.

(** A configuration with the access key and nothing else. *)
Definition cfg_access_key_only : gmap string (gmap string string) :=
  <[ "AWS" := <[ "AWS_ACCESS_KEY_ID" := "key" ]> ∅ ]> ∅.

(** A configuration with an empty credentials section. *)
Definition cfg_empty_section : gmap string (gmap string string) :=
  <[ "AWS" := ∅ ]> ∅.

(** Storage whose catalog has no [year] and whose log has no [page]. *)
Definition lake_without_year_and_page : gmap string stored :=
  <[ "song_data" :=
       mkStored [] (mkDF ["artist_id"; "duration"; "song_id"; "title"] []) ]>
  (<[ "s3a://udacity-dend/log_data/*.json" :=
        mkStored [] (mkDF ["firstName"; "gender"; "lastName"; "level"; "userId"] []) ]> ∅).

(** The columns of a log written in another case than the script
    names them, [page] and [ts] apart, and with a [Datetime]. *)
Definition other_case_log_columns : list string :=
  [ "Datetime"; "firstname"; "GENDER"; "lastname"; "Level"; "page"; "ts"; "userid" ].

(** Storage whose catalog and log are written in another case. *)
Definition lake_in_other_case : gmap string stored :=
  <[ "song_data" :=
       mkStored [] (mkDF ["Artist_Id"; "Duration"; "Song_Id"; "Title"; "Year"] []) ]>
  (<[ "s3a://udacity-dend/log_data/*.json" :=
        mkStored [] (mkDF other_case_log_columns []) ]> ∅).

(** Storage whose log has a [page] and no [level]. *)
Definition lake_without_level : gmap string stored :=
  <[ "s3a://udacity-dend/log_data/*.json" :=
       mkStored [] (mkDF ["firstName"; "gender"; "lastName"; "page"; "userId"] []) ]> ∅.

(** The columns line 61 selects. *)
Definition artists_cols : list string :=
  ["artist_id"; "artist_name"; "artist_location"; "artist_latitude"; "artist_longitude"].

(** The columns of the table lines 137-148 build. *)
Definition songplays_cols : list string :=
  [ "start_time"; "user_id"; "level"; "song_id"; "artist_id"; "session_id"; "location";
    "user_agent"; "year"; "month"; "songplay_id" ].

(** The engine resolves every name of [names] in the frame. *)
Definition resolvable (d : DataFrame) (names : list string) : bool :=
  forallb (has_column (columns d)) names.

(** The frame of the song branch after line 45, with the catalog at hand. *)
Definition before_line61 : state :=
  mkState (lake [] [hound_dog; hound_dog]) dl_cfg ∅
    [ ("df", PDataFrame (mkDF catalog_columns [hound_dog; hound_dog]));
      ("spark", PSession); ("input_data", PStr lake_input);
      ("output_data", PStr lake_output) ]
    [].

(** * Reasoning about runs *)

(** ** Frames *)

Lemma mem_true_iff x l : mem x l = true <-> In x l.
Proof.
  unfold mem. rewrite existsb_exists. split.
  - intros (y & Hy & Heq). apply String.eqb_eq in Heq. by subst.
  - intros H. exists x. split; [done | apply String.eqb_refl].
Qed.

Lemma assoc_filter_ne x y fr :
  x <> y -> assoc y (List.filter (fun b => negb (String.eqb x (fst b))) fr) = assoc y fr.
Proof.
  intros Hne. induction fr as [|[z v] fr IH]; cbn; [done|].
  destruct (String.eqb_spec x z) as [->|Hxz]; cbn.
  - rewrite IH. destruct (String.eqb_spec y z); [congruence | done].
  - by rewrite IH.
Qed.

Lemma assoc_filter_eq x fr :
  assoc x (List.filter (fun b => negb (String.eqb x (fst b))) fr) = None.
Proof.
  induction fr as [|[z v] fr IH]; cbn; [done|].
  destruct (String.eqb_spec x z) as [->|Hxz]; cbn; [done|].
  destruct (String.eqb_spec x z); [congruence | done].
Qed.

(** Reading a local after an assignment. *)
Lemma local_assign x v y s :
  local (snd (assign x v s)) y = if String.eqb y x then Some v else local s y.
Proof.
  unfold local, assign. cbn.
  destruct (String.eqb_spec y x) as [->|Hne]; [done|].
  apply assoc_filter_ne. congruence.
Qed.

(** ** Statements that leave storage alone *)

Section Frame_logic.
Context (names : list string).

Lemma steady_refl s : bound_in names s -> steady names s s.
Proof.
  intros H. split; [done | done | done |].
  exists []. by rewrite app_nil_r.
Qed.

Lemma steady_trans s1 s2 s3 : steady names s1 s2 -> steady names s2 s3 -> steady names s1 s3.
Proof.
  intros [Hf1 Hc1 _ (e1 & Ht1 & Ho1)] [Hf2 Hc2 Hb2 (e2 & Ht2 & Ho2)].
  split; [congruence | congruence | done |].
  exists (e1 ++ e2). rewrite Ht2, Ht1, <- app_assoc. split; [done|].
  rewrite forallb_app, Ho1, Ho2. done.
Qed.

Lemma tame_weaken {A} (m : M A) (R R' : A -> Prop) :
  tame names m R -> (forall a, R a -> R' a) -> tame names m R'.
Proof. intros Hm HR s Hs. destruct (Hm s Hs) as [H1 H2]. eauto. Qed.

Lemma tame_ret {A} (a : A) (R : A -> Prop) : R a -> tame names (ret a) R.
Proof.
  intros HR s Hs. cbn. split; [by apply steady_refl|].
  intros a' [= <-]. done.
Qed.

Lemma tame_raise {A} e (R : A -> Prop) : tame names (raise e) R.
Proof. intros s Hs. cbn. split; [by apply steady_refl | done]. Qed.

Lemma tame_bind {A B} (m : M A) (k : A -> M B) R R' :
  tame names m R -> (forall a, R a -> tame names (k a) R') -> tame names (bind m k) R'.
Proof.
  intros Hm Hk s Hs. destruct (Hm s Hs) as [H1 H2].
  unfold bind. destruct (m s) as [[a|e] s1]; cbn in *.
  - destruct (Hk a (H2 a eq_refl) s1 (steady_frame _ _ _ H1)) as [H3 H4].
    split; [by eapply steady_trans | done].
  - split; [done | done].
Qed.

(** What follows a statement that always raises does not run. *)
Lemma tame_cut {A B} (m : M A) (k : A -> M B) R R' :
  tame names m R -> aborts names m -> tame names (bind m k) R'.
Proof.
  intros Hm Ha s Hs. destruct (Hm s Hs) as [H1 _]. destruct (Ha s Hs) as [e He].
  unfold bind. destruct (m s) as [[a|e'] s1]; cbn in *; [done|].
  split; [done | done].
Qed.

Lemma aborts_bind {A B} (m : M A) (k : A -> M B) : aborts names m -> aborts names (bind m k).
Proof.
  intros Ha s Hs. destruct (Ha s Hs) as [e He].
  unfold bind. destruct (m s) as [[a|e'] s1]; cbn in *; [done | eauto].
Qed.

Lemma aborts_after {A B} (m : M A) (k : A -> M B) R :
  tame names m R -> (forall a, R a -> aborts names (k a)) -> aborts names (bind m k).
Proof.
  intros Hm Hk s Hs. destruct (Hm s Hs) as [H1 H2].
  unfold bind. destruct (m s) as [[a|e'] s1]; cbn in *; [|eauto].
  apply (Hk a (H2 a eq_refl) s1), H1.
Qed.

Lemma aborts_raise {A} e : aborts names (@raise A e).
Proof. intros s _. cbn. eauto. Qed.

(** A name that is neither a possible local, nor a global, nor a
    builtin. *)
Lemma aborts_name x :
  mem x names = false -> mem x module_globals || mem x builtins = false ->
  aborts names (name x).
Proof.
  intros Hn Hg s Hs. unfold name. specialize (Hs x Hn). unfold local in Hs.
  rewrite Hs, Hg. cbn. eauto.
Qed.

Lemma tame_name x : tame names (name x) (fun _ => True).
Proof.
  intros s Hs. unfold name.
  destruct (assoc x (frame s)); [|destruct (_ || _)]; cbn;
    (split; [by apply steady_refl | done]).
Qed.

Lemma tame_assign x v : mem x names = true -> tame names (assign x v) (fun _ => True).
Proof.
  intros Hx s Hs. split; [|done].
  split; [done | done | | exists []; cbn; by rewrite app_nil_r].
  intros y Hy. rewrite local_assign.
  destruct (String.eqb_spec y x) as [->|]; [congruence | by apply Hs].
Qed.

Lemma tame_emit ev : is_observation ev = true -> tame names (emit ev) (fun _ => True).
Proof.
  intros Hev s Hs. split; [|done].
  split; cbn; [done | done | exact Hs |].
  exists [ev]. cbn. by rewrite Hev.
Qed.

(** A stateless computation: the state it returns is the one it got. *)
Lemma tame_stateless {A} (m : M A) (R : A -> Prop) :
  (forall s, snd (m s) = s) -> (forall s a, fst (m s) = Ok a -> R a) -> tame names m R.
Proof.
  intros H1 H2 s Hs. rewrite H1. split; [by apply steady_refl | eauto].
Qed.
End Frame_logic.

(** ** The run-time operations are tame *)

Section Tame_operations.
Context (names : list string) (E : Engine).

Ltac stateless :=
  apply tame_stateless;
  [ intros ?; cbn; repeat case_match; done
  | intros ? ? ?; done ].

Lemma getattr_state o a s : snd (getattr o a s) = s.
Proof. destruct o; cbn; repeat case_match; done. Qed.

(** Only [w.parquet] is a method that writes. *)
Lemma getattr_writes o a s f :
  fst (getattr o a s) = Ok f -> a <> "parquet" -> writes f = false.
Proof.
  intros H Ha. unfold getattr in H.
  repeat case_match; unfold ret, raise in H; cbn [fst] in H; simplify_eq; try done.
  cbn [writes].
  match goal with H : mem a _ = true |- _ => apply mem_true_iff in H; cbn in H end.
  destruct_or!; subst; done.
Qed.

Lemma tame_getattr o a :
  tame names (getattr o a) (fun f => a <> "parquet" -> writes f = false).
Proof.
  apply tame_stateless; [apply getattr_state|].
  intros s f Hf Ha. by eapply getattr_writes.
Qed.

Lemma tame_py_add a b : tame names (py_add a b) (fun _ => True).
Proof. destruct a, b; stateless. Qed.

Lemma tame_py_eq a b : tame names (py_eq a b) (fun _ => True).
Proof. destruct a, b; stateless. Qed.

Lemma tame_py_and a b : tame names (py_and a b) (fun _ => True).
Proof. destruct a, b; stateless. Qed.

Lemma tame_py_truth o : tame names (py_truth o) (fun _ => True).
Proof. destruct o; stateless. Qed.

Lemma tame_as_column o : tame names (as_column o) (fun _ => True).
Proof. destruct o; stateless. Qed.

Lemma tame_as_columns os : tame names (as_columns os) (fun _ => True).
Proof.
  induction os as [|o os IH]; cbn; [by apply tame_ret|].
  eapply tame_bind; [apply tame_as_column | intros c _].
  eapply tame_bind; [apply IH | intros cs _]. by apply tame_ret.
Qed.

Lemma tame_as_strings os : tame names (as_strings os) (fun _ => True).
Proof.
  induction os as [|o os IH]; cbn; [by apply tame_ret|].
  destruct o; try apply tame_raise.
  eapply tame_bind; [apply IH | intros cs _]. by apply tame_ret.
Qed.

Lemma tame_bind_keywords f params kws :
  tame names (bind_keywords f params kws) (fun _ => True).
Proof.
  unfold bind_keywords. destruct (List.filter _ kws) as [|[k v] l];
    [by apply tame_ret | apply tame_raise].
Qed.

Lemma tame_read_json path : tame names (read_json path) (fun _ => True).
Proof.
  unfold read_json. eapply tame_bind; [by apply tame_emit | intros _ _].
  apply tame_stateless; [|done].
  intros s. by destruct (fs s !! path).
Qed.

Ltac tame_leaf :=
  repeat first
    [ apply tame_raise
    | apply tame_ret; done
    | apply tame_emit; done
    | apply tame_read_json
    | eapply tame_bind;
      [ first [ apply tame_as_columns | apply tame_as_column | apply tame_as_strings
              | apply tame_bind_keywords | by apply tame_emit ]
      | intros ? _ ] ].

Lemma tame_df_call d m args kws : tame names (df_call E d m args kws) (fun _ => True).
Proof.
  unfold df_call, bad_call, analysis_error.
  repeat case_match; tame_leaf; repeat case_match; tame_leaf.
Qed.

(** Any call but the writer's [parquet] is tame. *)
Lemma tame_call f args kws :
  writes f = false -> tame names (call E f args kws) (fun _ => True).
Proof.
  intros Hw. unfold call, bad_call.
  repeat case_match; simplify_eq; try apply tame_df_call; tame_leaf.
  cbn in Hw. apply negb_false_iff in Hw. congruence.
Qed.

(** [m <- getattr o a ;; call m ...] for a method other than [parquet] *)
Lemma tame_invoke o a args kws :
  a <> "parquet" ->
  tame names (f <- getattr o a ;; call E f args kws) (fun _ => True).
Proof.
  intros Ha. eapply tame_bind; [apply tame_getattr|].
  intros f Hf. apply tame_call. auto.
Qed.
End Tame_operations.

(** ** Every call of the two branches raises before it writes *)

Lemma params_bound names params :
  forallb (fun p => mem (fst p) names) params = true ->
  forall x, mem x names = false -> assoc x params = None.
Proof.
  induction params as [|[y v] ps IH]; cbn; [done|].
  intros [Hy Hps]%andb_prop x Hx.
  destruct (String.eqb_spec x y) as [->|]; [congruence | by apply IH].
Qed.

(** A function of the script whose body is tame and always raises. *)
Lemma enter_aborts {A} names f params (body : M A) R :
  (forall x, mem x names = false -> assoc x params = None) ->
  tame names body R -> aborts names body ->
  forall s, exists e s',
    enter f params body s = (Raise e, s') /\
    fs s' = fs s /\ config s' = config s /\ bound_in names s' /\
    exists evs, trace s' = trace s ++ ECall f :: evs /\ forallb is_observation evs = true.
Proof.
  intros Hp Ht Ha s. unfold enter.
  set (s0 := mkState _ _ _ _ _).
  assert (Hs0 : bound_in names s0) by exact Hp.
  destruct (Ht s0 Hs0) as [[Hfs Hcfg Hb (evs & Htr & Hobs)] _].
  destruct (Ha s0 Hs0) as [e He].
  destruct (body s0) as [[a|e'] s1]; cbn in *; [done|].
  exists e', s1. repeat split; try done.
  exists evs. rewrite Htr, <- app_assoc. done.
Qed.

Ltac tame_stmt :=
  repeat first
    [ by apply tame_assign
    | by apply tame_ret
    | apply tame_call; auto
    | eapply tame_bind;
      [ first [ apply tame_name | apply tame_getattr | apply tame_py_add
              | apply tame_py_eq | apply tame_call; auto ]
      | intros ? ? ] ].

Section Branches.
Context (E : Engine).

Lemma tame_song_line42 : tame song_names song_line42 (fun _ => True).
Proof. unfold song_line42. tame_stmt. Qed.

Lemma tame_song_line45 : tame song_names (song_line45 E) (fun _ => True).
Proof. unfold song_line45. tame_stmt. Qed.

Lemma tame_song_line48 : tame song_names (song_line48 E) (fun _ => True).
Proof. unfold song_line48. tame_stmt. Qed.

Lemma tame_song_line51 : tame song_names (song_line51 E) (fun _ => True).
Proof. unfold song_line51. tame_stmt. Qed.

Lemma tame_song_line52 : tame song_names (song_line52 E) (fun _ => True).
Proof. unfold song_line52. tame_stmt. Qed.

(** Line 52 names [songs_tables]: no local, global or builtin. *)
Lemma aborts_song_line52 : aborts song_names (song_line52 E).
Proof. unfold song_line52. apply aborts_bind, aborts_name; reflexivity. Qed.

Lemma process_song_data_raises spark input_data output_data s :
  exists e s',
    process_song_data E spark input_data output_data s = (Raise e, s') /\
    fs s' = fs s /\ config s' = config s /\ bound_in song_names s' /\
    exists evs, trace s' = trace s ++ ECall "process_song_data" :: evs /\
                forallb is_observation evs = true.
Proof.
  unfold process_song_data.
  eapply enter_aborts with (R := fun _ => True).
  - by apply params_bound.
  - eapply tame_bind; [apply tame_song_line42 | intros _ _].
    eapply tame_bind; [apply tame_song_line45 | intros _ _].
    eapply tame_bind; [apply tame_song_line48 | intros _ _].
    eapply tame_bind; [apply tame_song_line51 | intros _ _].
    eapply tame_cut; [apply tame_song_line52 | apply aborts_song_line52].
  - eapply aborts_after; [apply tame_song_line42 | intros _ _].
    eapply aborts_after; [apply tame_song_line45 | intros _ _].
    eapply aborts_after; [apply tame_song_line48 | intros _ _].
    eapply aborts_after; [apply tame_song_line51 | intros _ _].
    apply aborts_bind, aborts_song_line52.
Qed.

Lemma tame_log_line88 : tame log_names log_line88 (fun _ => True).
Proof. unfold log_line88. tame_stmt. Qed.

Lemma tame_log_line91 : tame log_names (log_line91 E) (fun _ => True).
Proof. unfold log_line91. tame_stmt. Qed.

Lemma tame_log_line94 : tame log_names (log_line94 E) (fun _ => True).
Proof. unfold log_line94. tame_stmt. Qed.

Lemma tame_log_line97 : tame log_names (log_line97 E) (fun _ => True).
Proof. unfold log_line97. tame_stmt. Qed.

Lemma tame_log_line98 : tame log_names (log_line98 E) (fun _ => True).
Proof. unfold log_line98, print_schema. tame_stmt. Qed.

Lemma tame_log_line99 : tame log_names (log_line99 E) (fun _ => True).
Proof. unfold log_line99, show_truncated. tame_stmt. Qed.

(** [t.show(5, truncated=False)] raises whatever [t] is: only a data
    frame has [show], and [show] has no parameter [truncated]. *)
Lemma show_truncated_raises t s :
  exists e,
    fst ((m <- getattr t "show" ;;
          call E m [PInt 5] [("truncated", PBool false)] ;; ret tt) s) = Raise e.
Proof.
  destruct t; cbn; repeat case_match; eauto.
  rewrite andb_false_r in *. done.
Qed.

Lemma aborts_log_line99 : aborts log_names (log_line99 E).
Proof.
  unfold log_line99, show_truncated.
  eapply aborts_after; [apply tame_name | intros t _ s _].
  apply show_truncated_raises.
Qed.

(** Line 103 names [output]: no local, global or builtin.  It raises
    before the writer's [parquet] is called. *)
Lemma aborts_log_line103 : aborts log_names (log_line103 E).
Proof.
  unfold log_line103, joined_path.
  eapply aborts_after; [apply tame_name | intros t _].
  eapply aborts_after; [apply tame_getattr | intros w _].
  eapply aborts_after; [apply tame_getattr | intros m _].
  apply aborts_bind.
  eapply aborts_after; [apply tame_name | intros o _].
  eapply aborts_after; [apply tame_getattr | intros p _].
  eapply aborts_after; [apply tame_getattr | intros j _].
  apply aborts_bind, aborts_name; reflexivity.
Qed.

Lemma process_log_data_raises spark input_data output_data s :
  exists e s',
    process_log_data E spark input_data output_data s = (Raise e, s') /\
    fs s' = fs s /\ config s' = config s /\ bound_in log_names s' /\
    exists evs, trace s' = trace s ++ ECall "process_log_data" :: evs /\
                forallb is_observation evs = true.
Proof.
  unfold process_log_data.
  eapply enter_aborts with (R := fun _ => True).
  - by apply params_bound.
  - eapply tame_bind; [apply tame_log_line88 | intros _ _].
    eapply tame_bind; [apply tame_log_line91 | intros _ _].
    eapply tame_bind; [apply tame_log_line94 | intros _ _].
    eapply tame_bind; [apply tame_log_line97 | intros _ _].
    eapply tame_bind; [apply tame_log_line98 | intros _ _].
    eapply tame_cut; [apply tame_log_line99 | apply aborts_log_line99].
  - eapply aborts_after; [apply tame_log_line88 | intros _ _].
    eapply aborts_after; [apply tame_log_line91 | intros _ _].
    eapply aborts_after; [apply tame_log_line94 | intros _ _].
    eapply aborts_after; [apply tame_log_line97 | intros _ _].
    eapply aborts_after; [apply tame_log_line98 | intros _ _].
    apply aborts_bind, aborts_log_line99.
Qed.
End Branches.

(** ** What the two branches compute before they raise *)

Lemma has_columns_mem d cols c :
  has_columns d cols = true -> In c cols -> mem c (columns d) = true.
Proof. unfold has_columns. rewrite forallb_forall. auto. Qed.

Lemma same_name_refl c : same_name c c = true.
Proof. apply String.eqb_refl. Qed.

(** A column the frame has under this very name resolves. *)
Lemma mem_has_column c cols : mem c cols = true -> has_column cols c = true.
Proof.
  unfold mem, has_column. rewrite !existsb_exists.
  intros (x & Hin & ->%String.eqb_eq). exists x. split; [done | apply same_name_refl].
Qed.

Lemma unresolved_names cols names :
  forallb (fun c => mem c cols) names = true ->
  unresolved cols (map CName names) = None.
Proof.
  unfold unresolved. induction names as [|n ns IH]; cbn; [done|].
  intros [H1 H2]%andb_prop. rewrite (mem_has_column _ _ H1). cbn. auto.
Qed.

Lemma columns_df_filter E c d : columns (df_filter E c d) = columns d.
Proof. done. Qed.

#[local] Arguments df_select : simpl never.
#[local] Arguments df_filter : simpl never.
#[local] Arguments df_dropDuplicates : simpl never.
#[local] Arguments unresolved : simpl never.
#[local] Arguments bind {A B} m k !s /.
#[local] Arguments ret {A} a s /.
#[local] Arguments raise {A} e s /.
#[local] Arguments name x !s /.
#[local] Arguments assign x v !s /.
#[local] Arguments emit ev !s /.
#[local] Arguments read_json path !s /.

Ltac mem_step :=
  match goal with
  | H : mem ?x ?l = _ |- context [mem ?x ?l] => rewrite H
  | H : has_column ?l ?x = _ |- context [has_column ?l ?x] => rewrite H
  | |- context [mem ?x ?l] =>
      let b := eval vm_compute in (mem x l) in
      match b with
      | true => change (mem x l) with true
      | false => change (mem x l) with false
      end
  end.

Ltac run := repeat (progress cbn -[lookup insert] || mem_step).

Section Runs.
Context (E : Engine).

(** When the catalog under ['song_data'] can be read and has the five
    song columns, [process_song_data] builds [songs_table], prints its
    schema and raises NameError at line 52. *)
Lemma process_song_data_run input_data output_data s st :
  fs s !! "song_data" = Some st ->
  has_columns (table st) songs_cols = true ->
  process_song_data E PSession (PStr input_data) (PStr output_data) s =
  (Raise (NameError "songs_tables"),
   mkState (fs s) (config s) (environ s)
     [ ("songs_table", PDataFrame (distinct_projection E songs_cols (table st)));
       ("df", PDataFrame (table st));
       ("song_data", PStr (input_data +:+ "song_data/*/*/*.json"));
       ("spark", PSession); ("input_data", PStr input_data);
       ("output_data", PStr output_data) ]
     (trace s ++ [ ECall "process_song_data"; ERead "song_data";
                   EPrintSchema songs_cols ])).
Proof.
  intros Hst Hc. apply unresolved_names in Hc.
  unfold process_song_data, enter.
  unfold song_line42, song_line45, song_line48, song_line51, song_line52.
  run. rewrite Hst. run.
  change [CName "song_id"; CName "title"; CName "artist_id"; CName "year";
          CName "duration"] with (map CName songs_cols).
  rewrite Hc. run.
  rewrite <- !app_assoc. done.
Qed.

(** When the log under [input_data + 'log_data/*.json'] can be read and
    has the page and user columns, [process_log_data] filters it, builds
    [users_table], prints its schema and raises TypeError at line 99. *)
Lemma process_log_data_run input_data output_data s st :
  fs s !! log_path input_data = Some st ->
  has_columns (table st) ("page" :: users_cols) = true ->
  process_log_data E PSession (PStr input_data) (PStr output_data) s =
  (Raise (TypeError "show() got an unexpected keyword argument 'truncated'"),
   mkState (fs s) (config s) (environ s)
     [ ("users_table",
        PDataFrame (distinct_projection E users_cols (df_filter E is_next_song (table st))));
       ("df", PDataFrame (df_filter E is_next_song (table st)));
       ("log_data", PStr (log_path input_data));
       ("spark", PSession); ("input_data", PStr input_data);
       ("output_data", PStr output_data) ]
     (trace s ++ [ ECall "process_log_data"; ERead (log_path input_data);
                   EPrintSchema users_cols ])).
Proof.
  intros Hst Hc.
  pose proof (has_columns_mem _ _ "page" Hc ltac:(cbn; tauto)) as Hpage.
  pose proof (mem_has_column _ _ Hpage) as Hpage'.
  apply andb_prop in Hc as [_ Hc]. apply unresolved_names in Hc.
  unfold log_path in *.
  unfold process_log_data, enter.
  unfold log_line88, log_line91, log_line94, log_line97, log_line98, log_line99,
    print_schema, show_truncated.
  run. rewrite Hst. run.
  change [CName "userId"; CName "firstName"; CName "lastName"; CName "gender";
          CName "level"] with (map CName users_cols).
  rewrite columns_df_filter, Hc. run.
  rewrite <- !app_assoc. done.
Qed.
End Runs.

(** ** The relational operators *)

Lemma imap_rows_const {A} (f : row -> A) (g : nat -> row -> A) i rs :
  (forall j r, g j r = f r) -> imap_rows g i rs = map f rs.
Proof.
  intros Hg. revert i. induction rs as [|r rs IH]; intros i; cbn; [done|].
  by rewrite Hg, IH.
Qed.

Lemma eval_col_names E cols i r names :
  map (eval_col E cols i r) (map CName names) = map (field cols r) names.
Proof. rewrite map_map. done. Qed.

Lemma rows_df_select_names E names d :
  rows (df_select E (map CName names) d) = map (project names d) (rows d).
Proof.
  unfold df_select. cbn [rows].
  apply imap_rows_const. intros j r. apply eval_col_names.
Qed.

Lemma sql_eq_true a s : sql_eq a (VStr s) = VBool true <-> a = VStr s.
Proof.
  destruct a; cbn; try (split; intros; discriminate).
  case_bool_decide; split; intros; simplify_eq; done.
Qed.

(** The filter of line 94 keeps exactly the records whose page is
    ['NextSong']. *)
Lemma elem_of_rows_df_filter E d r :
  r ∈ rows (df_filter E is_next_song d) <->
  r ∈ rows d /\ field (columns d) r "page" = VStr "NextSong".
Proof.
  unfold df_filter. cbn [rows]. rewrite !list_elem_of_In, filter_In.
  rewrite bool_decide_eq_true. cbn [eval_col is_next_song].
  by rewrite sql_eq_true.
Qed.

Lemma df_filter_idem E c d : df_filter E c (df_filter E c d) = df_filter E c d.
Proof.
  unfold df_filter. cbn [columns rows]. f_equal.
  induction (rows d) as [|r rs IH]; cbn; [done|].
  destruct (bool_decide _) eqn:Hr; cbn; [rewrite Hr|]; by rewrite ?IH.
Qed.

Lemma columns_distinct_projection E cols d :
  columns (distinct_projection E cols d) = cols.
Proof.
  unfold distinct_projection, df_dropDuplicates, df_select. cbn [columns].
  rewrite map_map. cbn. apply map_id.
Qed.

Lemma NoDup_distinct_projection E cols d : NoDup (rows (distinct_projection E cols d)).
Proof. apply NoDup_remove_dups. Qed.

(** [select(cols).dropDuplicates()] holds exactly the tuples that occur. *)
Lemma elem_of_distinct_projection E cols d t :
  t ∈ rows (distinct_projection E cols d) <-> exists r, r ∈ rows d /\ t = project cols d r.
Proof.
  unfold distinct_projection, df_dropDuplicates. cbn [rows columns].
  rewrite elem_of_remove_dups, rows_df_select_names, list_elem_of_In, in_map_iff.
  split; intros (r & H1 & H2); exists r; rewrite ?list_elem_of_In in *; done.
Qed.

(** Two records that differ in one of the projected columns have
    different tuples. *)
Lemma project_differs cols d r1 r2 c :
  In c cols -> field (columns d) r1 c <> field (columns d) r2 c ->
  project cols d r1 <> project cols d r2.
Proof.
  unfold project. intros Hc Hne Heq. apply Hne.
  induction cols as [|c' cols IH]; [done|].
  cbn in Heq. injection Heq as Hh Ht. destruct Hc as [->|Hc]; auto.
Qed.

(** ** Statements that do not look at some locals *)

Section Blind.
Context (hidden : list string).

Lemma blind_ret {A} (a : A) : blind hidden (ret a).
Proof. intros s1 s2 H. done. Qed.

Lemma blind_raise {A} e : blind hidden (@raise A e).
Proof. intros s1 s2 H. done. Qed.

Lemma blind_bind {A B} (m : M A) (k : A -> M B) :
  blind hidden m -> (forall a, blind hidden (k a)) -> blind hidden (bind m k).
Proof.
  intros Hm Hk s1 s2 H. destruct (Hm s1 s2 H) as [Hr Hs].
  unfold bind. destruct (m s1) as [r1 t1], (m s2) as [r2 t2]. cbn [fst snd] in *.
  subst r2. destruct r1 as [a|e]; [by apply Hk | done].
Qed.

Lemma blind_name x : mem x hidden = false -> blind hidden (name x).
Proof.
  intros Hx s1 s2 H. pose proof H as (_ & _ & _ & _ & Hl).
  specialize (Hl x Hx). unfold local in Hl. unfold name. rewrite Hl.
  destruct (assoc x (frame s2)); [done|]. by destruct (_ || _).
Qed.

Lemma blind_assign x v : blind hidden (assign x v).
Proof.
  intros s1 s2 (H1 & H2 & H3 & H4 & H5). split; [done|].
  repeat split; try done.
  intros y Hy. rewrite !local_assign. destruct (String.eqb y x); auto.
Qed.

Lemma blind_emit ev : blind hidden (emit ev).
Proof.
  intros s1 s2 (H1 & H2 & H3 & H4 & H5). split; [done|].
  repeat split; try done. unfold emit. cbn [snd trace]. by rewrite H4.
Qed.

(** A computation that neither reads nor changes the state. *)
Lemma blind_stateless {A} (m : M A) :
  (forall s, snd (m s) = s) -> (forall s1 s2, fst (m s1) = fst (m s2)) -> blind hidden m.
Proof. intros H1 H2 s1 s2 H. rewrite !H1. auto. Qed.

Ltac stateless :=
  apply blind_stateless;
  [ intros ?; cbn; repeat case_match; done
  | intros ? ?; cbn; repeat case_match; done ].

Lemma blind_getattr o a : blind hidden (getattr o a).
Proof. destruct o; stateless. Qed.

Lemma blind_py_add a b : blind hidden (py_add a b).
Proof. destruct a, b; stateless. Qed.

Lemma blind_py_eq a b : blind hidden (py_eq a b).
Proof. destruct a, b; stateless. Qed.

Lemma blind_py_and a b : blind hidden (py_and a b).
Proof. destruct a, b; stateless. Qed.

Lemma blind_py_truth o : blind hidden (py_truth o).
Proof. destruct o; stateless. Qed.

Lemma blind_as_column o : blind hidden (as_column o).
Proof. destruct o; stateless. Qed.

Lemma blind_as_columns os : blind hidden (as_columns os).
Proof.
  induction os as [|o os IH]; cbn [as_columns]; [apply blind_ret|].
  apply blind_bind; [apply blind_as_column | intros c].
  apply blind_bind; [apply IH | intros cs]. apply blind_ret.
Qed.

Lemma blind_as_strings os : blind hidden (as_strings os).
Proof.
  induction os as [|o os IH]; cbn [as_strings]; [apply blind_ret|].
  destruct o; try apply blind_raise.
  apply blind_bind; [apply IH | intros cs]. apply blind_ret.
Qed.

Lemma blind_bind_keywords f params kws : blind hidden (bind_keywords f params kws).
Proof.
  unfold bind_keywords. destruct (List.filter _ kws) as [|[k v] l];
    [apply blind_ret | apply blind_raise].
Qed.

Lemma blind_read_json path : blind hidden (read_json path).
Proof.
  unfold read_json. apply blind_bind; [apply blind_emit | intros _].
  intros s1 s2 H. pose proof H as (H1 & _). rewrite H1.
  by destruct (fs s2 !! path).
Qed.

Lemma blind_save d parts path mode : blind hidden (save d parts path mode).
Proof.
  unfold save. destruct (write_refused d parts); [apply blind_raise|].
  apply blind_bind; [apply blind_emit | intros _].
  intros s1 s2 (H1 & H2 & H3 & H4 & H5). rewrite H1, H2, H3, H4.
  repeat case_match; cbn [fst snd]; (split; [done|]); repeat split; done.
Qed.

Context (E : Engine).

Ltac blind_leaf :=
  repeat first
    [ apply blind_raise
    | apply blind_ret
    | apply blind_emit
    | apply blind_read_json
    | apply blind_save
    | apply blind_bind;
      [ first [ apply blind_as_columns | apply blind_as_column | apply blind_as_strings
              | apply blind_bind_keywords | apply blind_emit | apply blind_save ]
      | intros ? ] ].

Lemma blind_df_call d m args kws : blind hidden (df_call E d m args kws).
Proof.
  unfold df_call, bad_call, analysis_error.
  repeat case_match; blind_leaf; repeat case_match; blind_leaf.
Qed.

Lemma blind_call f args kws : blind hidden (call E f args kws).
Proof.
  unfold call, bad_call.
  repeat case_match; simplify_eq; try apply blind_df_call; blind_leaf.
Qed.
End Blind.

(** ** The song branch and its [input_data] *)

Ltac blind_stmt :=
  repeat first
    [ apply blind_assign
    | apply blind_ret
    | apply blind_call
    | apply blind_getattr
    | apply blind_py_add
    | apply blind_name; reflexivity
    | apply blind_bind; [ | intros ? ] ].

Section Song_input.
Context (E : Engine).

(** Lines 45 to 68 name neither [input_data] nor [song_data]. *)
Lemma blind_song_rest :
  blind song_hidden
    (song_line45 E ;; song_line48 E ;; song_line51 E ;; song_line52 E ;;
     song_line55 E ;; song_line58 E ;; song_line61 E ;; song_line64 E ;;
     song_line65 E ;; song_line68 E).
Proof.
  unfold song_line45, song_line48, song_line51, song_line52, song_line55,
    song_line58, song_line61, song_line64, song_line65, song_line68, joined_path.
  blind_stmt.
Qed.

Lemma song_line42_eq input_data s :
  local s "input_data" = Some (PStr input_data) ->
  song_line42 s = assign "song_data" (PStr (input_data +:+ "song_data/*/*/*.json")) s.
Proof.
  unfold song_line42, bind, name, local. intros ->. reflexivity.
Qed.

(** Line 42 only binds [song_data]. *)
Lemma song_line42_agree in1 in2 s1 s2 :
  agree song_hidden s1 s2 ->
  local s1 "input_data" = Some (PStr in1) ->
  local s2 "input_data" = Some (PStr in2) ->
  fst (song_line42 s1) = Ok tt /\ fst (song_line42 s2) = Ok tt /\
  agree song_hidden (snd (song_line42 s1)) (snd (song_line42 s2)).
Proof.
  intros (H1 & H2 & H3 & H4 & H5) Hl1 Hl2.
  rewrite (song_line42_eq in1 s1 Hl1), (song_line42_eq in2 s2 Hl2).
  repeat split; try done.
  intros x Hx. rewrite !local_assign.
  destruct (String.eqb_spec x "song_data") as [->|]; [done|].
  apply H5, Hx.
Qed.

Lemma process_song_data_agree spark in1 in2 output_data s :
  fst (process_song_data E spark (PStr in1) output_data s) =
  fst (process_song_data E spark (PStr in2) output_data s) /\
  agree song_hidden (snd (process_song_data E spark (PStr in1) output_data s))
                    (snd (process_song_data E spark (PStr in2) output_data s)).
Proof.
  unfold process_song_data, enter.
  set (s1 := mkState _ _ _ [("spark", spark); ("input_data", PStr in1); _] _).
  set (s2 := mkState _ _ _ [("spark", spark); ("input_data", PStr in2); _] _).
  assert (Hag : agree song_hidden s1 s2).
  { repeat split; try done. intros x Hx. unfold local. cbn.
    destruct (String.eqb_spec x "spark"); [done|].
    destruct (String.eqb_spec x "input_data") as [->|]; [discriminate Hx | done]. }
  destruct (song_line42_agree in1 in2 s1 s2 Hag eq_refl eq_refl) as (Ha & Hb & Hc).
  pose proof (blind_song_rest _ _ Hc) as [Hr Hs].
  change (bind song_line42 ?k s1) with
    (match song_line42 s1 with (Ok a, s') => k a s' | (Raise e, s') => (Raise e, s') end).
  change (bind song_line42 ?k s2) with
    (match song_line42 s2 with (Ok a, s') => k a s' | (Raise e, s') => (Raise e, s') end).
  destruct (song_line42 s1) as [[[]|e1] t1]; [|discriminate Ha].
  destruct (song_line42 s2) as [[[]|e2] t2]; [|discriminate Hb].
  cbn [fst snd] in Hr, Hs.
  match type of Hr with fst (?m t1) = _ => destruct (m t1) as [r1 u1] end.
  match type of Hr with _ = fst (?m t2) => destruct (m t2) as [r2 u2] end.
  cbn [fst snd] in Hr, Hs. subst r2.
  destruct r1 as [a|e]; cbn [fst snd]; [|done].
  split; [done|]. destruct Hs as (H1 & H2 & H3 & H4 & H5). repeat split; done.
Qed.
End Song_input.

(** ** The entry point *)

Lemma calls_observations evs : forallb is_observation evs = true -> calls evs = [].
Proof.
  induction evs as [|ev evs IH]; cbn; [done|].
  intros [H1 H2]%andb_prop. destruct ev; try discriminate H1; auto.
Qed.

Lemma written_observations evs : forallb is_observation evs = true -> written evs = [].
Proof.
  induction evs as [|ev evs IH]; cbn; [done|].
  intros [H1 H2]%andb_prop. destruct ev; try discriminate H1; auto.
Qed.

#[local] Arguments getitem o k !s /.
#[local] Arguments setitem o k v !s /.

Lemma inert_bind {A B} (m : M A) (k : A -> M B) :
  inert m -> (forall a, inert (k a)) -> inert (bind m k).
Proof.
  intros Hm Hk s. destruct (Hm s) as (H1 & H2 & H3).
  unfold bind. destruct (m s) as [[a|e] s1]; cbn [fst snd] in *; [|done].
  destruct (Hk a s1) as (H4 & H5 & H6). repeat split; congruence.
Qed.

Lemma inert_name x : inert (name x).
Proof.
  intros s. unfold name. destruct (assoc x (frame s)); [done|].
  by destruct (_ || _).
Qed.

Lemma inert_getattr o a : inert (getattr o a).
Proof. intros s. by rewrite getattr_state. Qed.

Lemma inert_getitem o k : inert (getitem o k).
Proof. intros s. unfold getitem. repeat case_match; done. Qed.

Lemma inert_setitem o k v : inert (setitem o k v).
Proof. intros s. unfold setitem. repeat case_match; done. Qed.

Section Entry.
Context (E : Engine).

(** [main] always raises and leaves storage as it was.  It enters
    [create_spark_session] and then, when the configuration gives the
    output location, [process_log_data]; nothing is written. *)
Lemma main_run s :
  exists e s' evs,
    main E s = (Raise e, s') /\ fs s' = fs s /\ trace s' = trace s ++ evs /\
    written evs = [] /\
    calls evs = "main" :: "create_spark_session" ::
                match output_location s with
                | Some _ => ["process_log_data"]
                | None => []
                end.
Proof.
  unfold main, enter, create_spark_session, enter, output_location.
  destruct (config s !! "S3") as [kv|] eqn:Hsec;
    [destruct (kv !! "OUTPUT_DATA") as [out|] eqn:Hout|];
    repeat (progress cbn -[lookup insert process_log_data] || mem_step
            || rewrite Hsec || rewrite Hout).
  - match goal with |- context [process_log_data E ?a ?b ?c ?t] =>
        destruct (process_log_data_raises E a b c t)
        as (e & s' & Heq & Hfs & _ & _ & evs & Htr & Hobs); rewrite Heq
    end.
    exists e, s', (ECall "main" :: ECall "create_spark_session"
                   :: ECall "process_log_data" :: evs).
    repeat split; [done | | |].
    + rewrite Htr. cbn [trace]. rewrite <- !app_assoc. done.
    + cbn. by apply written_observations.
    + cbn. by rewrite calls_observations.
  - eexists _, _, [ECall "main"; ECall "create_spark_session"].
    repeat split. cbn [trace]. by rewrite <- !app_assoc.
  - eexists _, _, [ECall "main"; ECall "create_spark_session"].
    repeat split. cbn [trace]. by rewrite <- !app_assoc.
Qed.

(** Lines 9-13 touch only the environment. *)
Lemma module_body_run : inert module_body.
Proof.
  unfold module_body.
  repeat first
    [ apply inert_setitem
    | apply inert_bind;
      [ first [ apply inert_name | apply inert_getattr | apply inert_getitem
              | apply inert_setitem ]
      | intros ? ] ].
Qed.

(** A run of the script leaves storage as it was and writes nothing. *)
Lemma script_run s :
  exists e s' evs,
    script E s = (Raise e, s') /\ fs s' = fs s /\ trace s' = trace s ++ evs /\
    written evs = [].
Proof.
  unfold script.
  change (bind module_body ?k s) with
    (match module_body s with (Ok a, s') => k a s' | (Raise e, s') => (Raise e, s') end).
  destruct (module_body_run s) as (Hfs & Htr & _).
  destruct (module_body s) as [[[]|e0] s0]; cbn [fst snd] in *.
  - destruct (main_run s0) as (e & s' & evs & Heq & Hfs' & Htr' & Hw & _).
    exists e, s', evs. rewrite Heq. repeat split; congruence.
  - exists e0, s0, []. rewrite app_nil_r. done.
Qed.

Lemma run_fixed cfg store : run E cfg store = store.
Proof.
  unfold run. destruct (script_run (start store cfg)) as (e & s' & evs & Heq & Hfs & _).
  rewrite Heq. exact Hfs.
Qed.
End Entry.

#[local] Arguments save d parts path mode !s /.

(** ** The later statements of the log branch *)

Lemma tame_name_global names x :
  mem x names = false -> tame names (name x) (fun v => v = PGlobal x).
Proof.
  intros Hx s Hs. unfold name. pose proof (Hs x Hx) as Hl. unfold local in Hl.
  rewrite Hl. destruct (_ || _); cbn [fst snd];
    (split; [by apply steady_refl | by intros a [= <-]]).
Qed.

Section Later_lines.
Context (E : Engine).

Ltac tame_global :=
  eapply tame_bind; [by apply tame_name_global | intros ? ->].

Lemma tame_with_fn_column t column fn :
  mem fn log_all_names = false ->
  tame log_all_names (with_fn_column E t column fn) (fun _ => True).
Proof.
  intros Hfn. unfold with_fn_column.
  eapply tame_bind; [apply tame_getattr | intros m Hm].
  eapply tame_bind; [by apply tame_name_global | intros ? ->].
  eapply tame_bind; [by apply tame_call | intros c _].
  apply tame_call. auto.
Qed.

(** Lines 114-122 name [dayofweek], which line 6 does not import: in
    every state of the function the statement raises. *)
Lemma aborts_log_line114 : aborts log_all_names (log_line114 E).
Proof.
  unfold log_line114.
  eapply aborts_after; [apply tame_name | intros d _].
  eapply aborts_after; [apply tame_getattr | intros m Hm].
  eapply aborts_after; [apply tame_call; auto | intros t _].
  eapply aborts_after; [apply tame_getattr | intros m' Hm'].
  eapply aborts_after; [apply tame_name | intros d' _].
  eapply aborts_after; [apply tame_getattr | intros c _].
  eapply aborts_after; [apply tame_call; auto | intros t1 _].
  eapply aborts_after; [by apply tame_with_fn_column | intros t2 _].
  eapply aborts_after; [by apply tame_with_fn_column | intros t3 _].
  eapply aborts_after; [by apply tame_with_fn_column | intros t4 _].
  eapply aborts_after; [by apply tame_with_fn_column | intros t5 _].
  eapply aborts_after; [by apply tame_with_fn_column | intros t6 _].
  apply aborts_bind. unfold with_fn_column.
  eapply aborts_after; [apply tame_getattr | intros m6 _].
  apply aborts_bind, aborts_name; reflexivity.
Qed.

Lemma tame_col_alias c a : tame log_all_names (col_alias E c a) (fun _ => True).
Proof.
  unfold col_alias. tame_global.
  eapply tame_bind; [by apply tame_call | intros x _].
  apply tame_invoke. done.
Qed.

Lemma tame_fn_alias fn c a :
  mem fn log_all_names = false ->
  tame log_all_names (fn_alias E fn c a) (fun _ => True).
Proof.
  intros Hfn. unfold fn_alias.
  eapply tame_bind; [by apply tame_name_global | intros ? ->].
  eapply tame_bind; [by apply tame_call | intros x _].
  apply tame_invoke. done.
Qed.

(** Lines 137-148 name [monotonically_increasing_id], which nothing
    imports: in every state of the function the statement raises. *)
Lemma aborts_log_line137 : aborts log_all_names (log_line137 E).
Proof.
  unfold log_line137.
  eapply aborts_after; [apply tame_name | intros j _].
  eapply aborts_after; [apply tame_getattr | intros m Hm].
  do 8 (eapply aborts_after; [apply tame_col_alias | intros ? _]).
  do 2 (eapply aborts_after; [by apply tame_fn_alias | intros ? _]).
  eapply aborts_after; [apply tame_call; auto | intros t _].
  eapply aborts_after; [apply tame_getattr | intros m' _].
  apply aborts_bind, aborts_name; reflexivity.
Qed.
End Later_lines.

(** * The properties of the specification *)

Section Properties.
Context (E : Engine).

(** C2.  A log record whose page is not ['NextSong'] contributes nothing
    to any table of the log branch.  When the log can be read and has
    the page and user columns: every row of [users_table] is the user
    tuple of a record whose page is ['NextSong']; the table is the one
    the branch builds from the log with the other records removed; the
    time and songplays tables are never built; storage is unchanged. *)
Theorem nonplay_records_never_appear input_data output_data s st :
  fs s !! log_path input_data = Some st ->
  has_columns (table st) ("page" :: users_cols) = true ->
  let s' := snd (process_log_data E PSession (PStr input_data) (PStr output_data) s) in
  (exists u, local s' "users_table" = Some (PDataFrame u) /\
     forall t, t ∈ rows u ->
       exists r, r ∈ rows (table st) /\
                 field (columns (table st)) r "page" = VStr "NextSong" /\
                 t = project users_cols (table st) r) /\
  (forall s2 st2,
     fs s2 !! log_path input_data = Some st2 ->
     table st2 = df_filter E is_next_song (table st) ->
     local (snd (process_log_data E PSession (PStr input_data) (PStr output_data) s2))
           "users_table" = local s' "users_table") /\
  local s' "time_table" = None /\
  local s' "songplays_table" = None /\
  fs s' = fs s.
Proof.
  intros Hst Hc s'. subst s'. rewrite (process_log_data_run E _ _ _ _ Hst Hc).
  cbn [snd]. unfold local. cbn [frame assoc String.eqb Ascii.eqb Bool.eqb].
  split; [|split]; [| |done].
  - eexists. split; [reflexivity|].
    intros t (r & Hr & ->)%elem_of_distinct_projection.
    apply elem_of_rows_df_filter in Hr as [Hr Hpage]. eauto.
  - intros s2 st2 Hst2 Heq.
    assert (Hc2 : has_columns (table st2) ("page" :: users_cols) = true)
      by (rewrite Heq; exact Hc).
    rewrite (process_log_data_run E _ _ _ _ Hst2 Hc2).
    cbn [snd frame assoc String.eqb Ascii.eqb Bool.eqb].
    by rewrite Heq, df_filter_idem.
Qed.

(** C6.  The users table is de-duplicated on the full (userId,
    firstName, lastName, gender, level) tuple.  When the log can be
    read and has the page and user columns, [users_table] has these five
    columns, no row twice, and exactly the tuples of the records whose
    page is ['NextSong']; so two such records that differ in level give
    two rows, also when they are of one user. *)
Theorem users_table_one_row_per_distinct_tuple input_data output_data s st :
  fs s !! log_path input_data = Some st ->
  has_columns (table st) ("page" :: users_cols) = true ->
  let s' := snd (process_log_data E PSession (PStr input_data) (PStr output_data) s) in
  let played r := r ∈ rows (table st) /\
                  field (columns (table st)) r "page" = VStr "NextSong" in
  exists u,
    local s' "users_table" = Some (PDataFrame u) /\
    columns u = users_cols /\
    NoDup (rows u) /\
    (forall t, t ∈ rows u <-> exists r, played r /\ t = project users_cols (table st) r) /\
    (forall r1 r2, played r1 -> played r2 ->
       field (columns (table st)) r1 "level" <> field (columns (table st)) r2 "level" ->
       project users_cols (table st) r1 ∈ rows u /\
       project users_cols (table st) r2 ∈ rows u /\
       project users_cols (table st) r1 <> project users_cols (table st) r2).
Proof.
  intros Hst Hc s' played. subst s'. rewrite (process_log_data_run E _ _ _ _ Hst Hc).
  cbn [snd]. unfold local. cbn [frame assoc String.eqb Ascii.eqb Bool.eqb].
  eexists. split; [reflexivity|].
  assert (Hiff : forall t,
    t ∈ rows (distinct_projection E users_cols (df_filter E is_next_song (table st))) <->
    exists r, played r /\ t = project users_cols (table st) r).
  { intros t. rewrite elem_of_distinct_projection. unfold played.
    split; intros (r & Hr & ->); exists r;
      [apply elem_of_rows_df_filter in Hr | apply (elem_of_rows_df_filter E) in Hr]; done. }
  split; [apply columns_distinct_projection|].
  split; [apply NoDup_distinct_projection|].
  split; [exact Hiff|].
  intros r1 r2 H1 H2 Hne. repeat split.
  - apply Hiff. eauto.
  - apply Hiff. eauto.
  - apply (project_differs users_cols (table st) r1 r2 "level"); [|done].
    cbn. tauto.
Qed.

(** C7.  A rerun should replace what every destination holds with the
    tables of its input.  No run replaces anything.  A run leaves
    storage as it was, and so does either branch called on its own, so
    a second run finds what the first found.  On a lake whose five
    destinations hold what an earlier job left there, the run builds
    the users table of its log and ends with the five destinations as
    they were, having written nothing. *)
Theorem rerun_replaces_no_destination :
  (forall cfg store,
     run E cfg store = store /\ run E cfg (run E cfg store) = store) /\
  (forall spark input_data output_data s,
     fs (snd (process_song_data E spark input_data output_data s)) = fs s /\
     fs (snd (process_log_data E spark input_data output_data s)) = fs s) /\
  (let s' := snd (script identity_engine (start stale_lake dl_cfg)) in
   Forall (fun file => fs s' !! path_join lake_output file = Some stale) table_files /\
   written (trace s') = [] /\
   exists users,
     local s' "users_table" = Some (PDataFrame users) /\
     rows users = [[VStr "8"; VStr "Ann"; VStr "Lee"; VStr "F"; VStr "free"]] /\
     users <> table stale).
Proof.
  split; [intros cfg store; by rewrite !run_fixed|].
  split.
  { intros spark inp out s.
    destruct (process_song_data_raises E spark inp out s) as (e1 & s1 & -> & H1 & _).
    destruct (process_log_data_raises E spark inp out s) as (e2 & s2 & -> & H2 & _).
    done. }
  cbv zeta. split; [|split].
  - unfold table_files. repeat (apply List.Forall_cons; [vm_compute; reflexivity|]).
    apply List.Forall_nil.
  - vm_compute. reflexivity.
  - eexists. split; [vm_compute; reflexivity|]. split; [reflexivity|]. discriminate.
Qed.

(** C8, as amended.  [main] takes no argument.  It creates the
    session: [create_spark_session] returns one in every state.  It
    never enters [process_song_data].  When the configuration gives the
    output location, what [main] does from line 164 on is the call of
    [process_log_data] with that session, the root
    ['s3a://udacity-dend/'] and the configured location, and it enters
    no other function; when the configuration gives none, line 161
    raises and [main] enters neither branch. *)
Theorem main_runs_only_the_log_branch s :
  create_spark_session E s
  = (Ok PSession, mkState (fs s) (config s) (environ s) (frame s)
                    (trace s ++ [ECall "create_spark_session"])) /\
  exists evs,
    trace (snd (main E s)) = trace s ++ evs /\
    ~ In "process_song_data" (calls evs) /\
    (forall out, output_location s = Some out ->
       main E s = process_log_data E PSession (PStr "s3a://udacity-dend/") (PStr out)
                    (at_line164 s out) /\
       calls evs = ["main"; "create_spark_session"; "process_log_data"]) /\
    (output_location s = None ->
       (exists key, fst (main E s) = Raise (KeyError key)) /\
       calls evs = ["main"; "create_spark_session"]).
Proof.
  split.
  { destruct s as [f c e fr tr]. unfold create_spark_session, enter.
    cbn -[lookup insert]. reflexivity. }
  destruct (main_run E s) as (e & s' & evs & Heq & _ & Htr & _ & Hcalls).
  exists evs. rewrite Heq. cbn [snd fst]. split; [done|].
  rewrite Hcalls. split; [|split].
  - destruct (output_location s); cbn; intros H; destruct_or!; done.
  - intros out Hout. rewrite Hout. split; [|done].
    rewrite <- Heq. clear Heq Htr Hcalls.
    unfold output_location in Hout.
    destruct s as [f c en fr tr]. cbn [config] in Hout.
    destruct (c !! "S3") as [kv|] eqn:Hsec; [|done].
    unfold main, enter, create_spark_session, enter, at_line164.
    repeat (progress cbn -[lookup insert process_log_data] || mem_step
            || rewrite Hsec || rewrite Hout).
    rewrite <- !app_assoc. cbn [app].
    match goal with |- context [process_log_data E ?a ?b ?c ?t] =>
      destruct (process_log_data_raises E a b c t) as (e1 & s1 & Heq1 & _); rewrite Heq1
    end.
    reflexivity.
  - intros Hout. rewrite Hout. split; [|done].
    unfold output_location in Hout.
    destruct s as [f c en fr tr]. cbn [config] in Hout.
    revert Heq. unfold main, enter, create_spark_session, enter.
    destruct (c !! "S3") as [kv|] eqn:Hsec;
      repeat (progress cbn -[lookup insert process_log_data] || mem_step
              || rewrite Hsec || rewrite Hout);
      intros [= <- _]; eauto.
Qed.

(** C9, as amended.  Neither branch ever writes: every call of
    [process_song_data] and of [process_log_data] raises, with storage
    as it was and no write in the trace.  The error of
    [process_song_data] is the NameError of [songs_tables] (line 52)
    whenever the catalog is read and has the song columns.  The error
    of [process_log_data] is a TypeError, [show] having no parameter
    [truncated] (line 99), whenever the log is read and has the page
    and user columns; line 103, if it ran, would raise the NameError of
    [output] before calling the writer. *)
Theorem branches_raise_before_any_write s :
  (forall spark input_data output_data,
     exists e s' evs,
       process_song_data E spark input_data output_data s = (Raise e, s') /\
       fs s' = fs s /\ trace s' = trace s ++ evs /\ written evs = []) /\
  (forall spark input_data output_data,
     exists e s' evs,
       process_log_data E spark input_data output_data s = (Raise e, s') /\
       fs s' = fs s /\ trace s' = trace s ++ evs /\ written evs = []) /\
  (forall input_data output_data st,
     fs s !! "song_data" = Some st ->
     has_columns (table st) songs_cols = true ->
     fst (process_song_data E PSession (PStr input_data) (PStr output_data) s)
     = Raise (NameError "songs_tables")) /\
  (forall input_data output_data st,
     fs s !! log_path input_data = Some st ->
     has_columns (table st) ("page" :: users_cols) = true ->
     fst (process_log_data E PSession (PStr input_data) (PStr output_data) s)
     = Raise (TypeError "show() got an unexpected keyword argument 'truncated'")) /\
  (forall d,
     bound_in log_names s ->
     local s "users_table" = Some (PDataFrame d) ->
     log_line103 E s = (Raise (NameError "output"), s)).
Proof.
  split; [|split; [|split; [|split]]].
  - intros spark inp out.
    destruct (process_song_data_raises E spark inp out s)
      as (e & s' & Heq & Hfs & _ & _ & evs & Htr & Hobs).
    exists e, s', (ECall "process_song_data" :: evs).
    repeat split; try done. cbn. by apply written_observations.
  - intros spark inp out.
    destruct (process_log_data_raises E spark inp out s)
      as (e & s' & Heq & Hfs & _ & _ & evs & Htr & Hobs).
    exists e, s', (ECall "process_log_data" :: evs).
    repeat split; try done. cbn. by apply written_observations.
  - intros inp out st Hst Hc. by rewrite (process_song_data_run E _ _ _ _ Hst Hc).
  - intros inp out st Hst Hc. by rewrite (process_log_data_run E _ _ _ _ Hst Hc).
  - intros d Hb Hu.
    pose proof (Hb "os" eq_refl) as Hos. pose proof (Hb "output" eq_refl) as Hout.
    unfold local in *. destruct s as [f c e fr tr]. cbn [frame] in *.
    unfold log_line103, joined_path.
    cbn -[lookup insert]. rewrite Hu. cbn -[lookup insert].
    rewrite Hos. cbn -[lookup insert].
    change ("os" +:+ "." +:+ "path") with "os.path". cbn -[lookup insert].
    rewrite Hout. reflexivity.
Qed.

(** C10.  [process_song_data] does not depend on its [input_data]: for
    two strings it returns the same result, with the same storage and
    the same trace, and the same locals but [input_data] and the unused
    [song_data]; what it reads is the table under ['song_data'], from
    which [songs_table] is built for both. *)
Theorem song_branch_ignores_input_data spark in1 in2 output_data s :
  let r1 := process_song_data E spark (PStr in1) output_data s in
  let r2 := process_song_data E spark (PStr in2) output_data s in
  fst r1 = fst r2 /\
  fs (snd r1) = fs (snd r2) /\
  trace (snd r1) = trace (snd r2) /\
  (forall x, x <> "input_data" -> x <> "song_data" ->
     local (snd r1) x = local (snd r2) x) /\
  (forall st out,
     spark = PSession -> output_data = PStr out ->
     fs s !! "song_data" = Some st ->
     has_columns (table st) songs_cols = true ->
     trace (snd r1) = trace s ++ [ ECall "process_song_data"; ERead "song_data";
                                   EPrintSchema songs_cols ] /\
     local (snd r1) "songs_table"
     = Some (PDataFrame (distinct_projection E songs_cols (table st))) /\
     local (snd r2) "songs_table"
     = Some (PDataFrame (distinct_projection E songs_cols (table st)))).
Proof.
  intros r1 r2. subst r1 r2.
  destruct (process_song_data_agree E spark in1 in2 output_data s)
    as (Hr & Hfs & _ & _ & Htr & Hl).
  split; [done|]. split; [done|]. split; [done|]. split.
  - intros x H1 H2. apply Hl. cbn.
    destruct (String.eqb_spec x "input_data"); [done|].
    destruct (String.eqb_spec x "song_data"); done.
  - intros st out -> -> Hst Hc.
    rewrite !(process_song_data_run E _ _ _ _ Hst Hc). done.
Qed.
End Properties.

(** ** The properties on the small lake *)

(** C1.  One play of "Hound Dog" by "Elvis Presley" with the song in the
    catalog should give one songplays row.  The run raises at line 99;
    no join is made, no songplays table is built, no file is written.
    The join of line 135, reached by leaving lines 98-129 out, raises as
    well, and where [col(df.artist)] does: [col] takes the name of a
    column and is handed a column.  It does so before [song_df] is
    looked at, and so also when [song_df] is the catalog and not the
    path string of line 132. *)
Theorem matched_play_yields_no_songplays_row :
  let r := process_log_data identity_engine PSession (PStr lake_input) (PStr lake_output)
             one_play in
  fst r = Raise (TypeError "show() got an unexpected keyword argument 'truncated'") /\
  local (snd r) "join_table" = None /\
  local (snd r) "songplays_table" = None /\
  fs (snd r) !! path_join lake_output "songplays_table.parquet" = None /\
  exists e,
    col_of_attr identity_engine "df" "artist" before_line135 = (Raise e, before_line135) /\
    log_line135 identity_engine before_line135 = (Raise e, before_line135) /\
    log_line135 identity_engine before_line135_with_catalog
    = (Raise e, before_line135_with_catalog) /\
    e <> AttributeError "str" "artist_id".
Proof.
  cbv zeta. split; [vm_compute; reflexivity|]. split; [vm_compute; reflexivity|].
  split; [vm_compute; reflexivity|]. split; [vm_compute; reflexivity|].
  eexists. split; [vm_compute; reflexivity|]. split; [vm_compute; reflexivity|].
  split; [vm_compute; reflexivity | discriminate].
Qed.

(** C3.  Two identical records in the catalog should give one songs row
    and one artists row.  The run builds [songs_table] and raises at
    line 52: no artists table is built and neither file is written; and
    so it is for every call, whatever the catalog. *)
Theorem identical_song_records_yield_no_tables :
  (let r := process_song_data identity_engine PSession (PStr lake_input) (PStr lake_output)
              twin_records in
   fst r = Raise (NameError "songs_tables") /\
   local (snd r) "artists_table" = None /\
   fs (snd r) !! path_join lake_output "songs_table.parquet" = None /\
   fs (snd r) !! path_join lake_output "artists_table.parquet" = None) /\
  (forall E spark input_data output_data s,
     exists e s',
       process_song_data E spark input_data output_data s = (Raise e, s') /\
       local s' "artists_table" = None /\ fs s' = fs s).
Proof.
  split; [vm_compute; repeat split|].
  intros E spark inp out s.
  destruct (process_song_data_raises E spark inp out s) as (e & s' & Heq & Hfs & _ & Hb & _).
  exists e, s'. split; [done|]. split; [by apply Hb | done].
Qed.

(** C4.  The time table should hold, for every play, the timestamp and
    its hour, day, week, month, year and weekday.  The run raises at line
    99: no time table is built and no file is written.  Lines 105-122,
    reached by leaving lines 97-103 out, raise as well: line 114 selects
    [datetime], while lines 107 and 111 add [timestamp] and [date]; and
    in every state of the function they raise, [dayofweek] not being
    imported. *)
Theorem time_table_is_never_built :
  (let r := process_log_data identity_engine PSession (PStr lake_input) (PStr lake_output)
              one_play in
   local (snd r) "time_table" = None /\
   fs (snd r) !! path_join lake_output "time_table.parquet" = None) /\
  (let r := (log_line88 ;; log_line91 identity_engine ;; log_line94 identity_engine ;;
             log_line106 identity_engine ;; log_line107 identity_engine ;;
             log_line110 identity_engine ;; log_line111 identity_engine ;;
             log_line114 identity_engine)
              (branch_frame one_play lake_input lake_output) in
   fst r = Raise (AnalysisException "cannot resolve 'datetime' given input columns") /\
   exists d, local (snd r) "df" = Some (PDataFrame d) /\
             columns d = log_columns ++ ["timestamp"; "date"]) /\
  (forall E, aborts log_all_names (log_line114 E)).
Proof.
  split; [vm_compute; repeat split|]. split; [|apply aborts_log_line114].
  vm_compute. split; [done|]. eexists. split; reflexivity.
Qed.

(** C5.  Every songplays row should get an identifier, the identifiers
    distinct and increasing.  The run raises at line 99 and builds no
    songplays table; and in every state of the function lines 137-148
    raise, [monotonically_increasing_id] not being imported. *)
Theorem songplay_ids_are_never_assigned :
  (let r := process_log_data identity_engine PSession (PStr lake_input) (PStr lake_output)
              one_play in
   local (snd r) "songplays_table" = None /\
   fs (snd r) !! path_join lake_output "songplays_table.parquet" = None) /\
  (forall E, aborts log_all_names (log_line137 E)) /\
  mem "monotonically_increasing_id" (log_all_names ++ module_globals ++ builtins) = false.
Proof.
  split; [vm_compute; repeat split|]. split; [apply aborts_log_line137 | reflexivity].
Qed.

(** C9 as stated fails: the error of [process_log_data] on a readable
    log is the TypeError of line 99, not a NameError, and the error of
    [process_song_data] on storage without a catalog is the engine's. *)
Lemma branch_errors_that_are_not_name_errors :
  (exists e,
     fst (process_log_data identity_engine PSession (PStr lake_input) (PStr lake_output)
            one_play) = Raise e /\
     e = TypeError "show() got an unexpected keyword argument 'truncated'" /\
     is_name_error e = false) /\
  (exists e,
     fst (process_song_data identity_engine PSession (PStr lake_input) (PStr lake_output)
            empty_lake) = Raise e /\
     e = AnalysisException "Path does not exist: song_data" /\
     is_name_error e = false).
Proof. split; eexists; vm_compute; repeat split. Qed.

(** C8 as stated fails: with a configuration that has the credentials
    and no output location the script gets to [main], which creates the
    session and raises at line 161; [process_log_data] is not called. *)
Lemma main_without_s3_calls_no_branch :
  let r := script identity_engine (start (lake [elvis_play] [hound_dog]) cfg_without_s3) in
  fst r = Raise (KeyError "S3") /\
  calls (trace (snd r)) = ["main"; "create_spark_session"] /\
  ~ In "process_log_data" (calls (trace (snd r))).
Proof.
  cbv zeta. split; [vm_compute; reflexivity|]. split; [vm_compute; reflexivity|].
  vm_compute. intros H. destruct_or!; done.
Qed.

(** ** The hypotheses hold on the small lake *)

Lemma nonplay_records_never_appear_witness :
  let st := mkStored [] (mkDF log_columns [elvis_play; home_visit]) in
  let s' := snd (process_log_data identity_engine PSession (PStr lake_input)
                   (PStr lake_output) play_and_visit) in
  fs play_and_visit !! log_path lake_input = Some st /\
  has_columns (table st) ("page" :: users_cols) = true /\
  (exists u, local s' "users_table" = Some (PDataFrame u) /\
     forall t, t ∈ rows u ->
       exists r, r ∈ rows (table st) /\
                 field (columns (table st)) r "page" = VStr "NextSong" /\
                 t = project users_cols (table st) r) /\
  local s' "time_table" = None /\
  local s' "songplays_table" = None.
Proof.
  intros st s'.
  assert (H1 : fs play_and_visit !! log_path lake_input = Some st)
    by (vm_compute; reflexivity).
  assert (H2 : has_columns (table st) ("page" :: users_cols) = true)
    by (vm_compute; reflexivity).
  destruct (nonplay_records_never_appear identity_engine lake_input lake_output
              play_and_visit st H1 H2) as (Hu & _ & Ht & Hp & _).
  repeat split; assumption.
Defined.

Lemma users_table_one_row_per_distinct_tuple_witness :
  let st := mkStored [] (mkDF log_columns
              [ play "Elvis Presley" "Hound Dog" "free" 1541903636796;
                play "Elvis Presley" "Jailhouse Rock" "paid" 1541990036796;
                play "Elvis Presley" "Hound Dog" "paid" 1541990236796;
                home_visit ]) in
  let s' := snd (process_log_data identity_engine PSession (PStr lake_input)
                   (PStr lake_output) level_change) in
  fs level_change !! log_path lake_input = Some st /\
  has_columns (table st) ("page" :: users_cols) = true /\
  exists u,
    local s' "users_table" = Some (PDataFrame u) /\
    NoDup (rows u) /\
    rows u = [ [VStr "8"; VStr "Ann"; VStr "Lee"; VStr "F"; VStr "free"];
               [VStr "8"; VStr "Ann"; VStr "Lee"; VStr "F"; VStr "paid"] ].
Proof.
  intros st s'.
  assert (H1 : fs level_change !! log_path lake_input = Some st)
    by (vm_compute; reflexivity).
  assert (H2 : has_columns (table st) ("page" :: users_cols) = true)
    by (vm_compute; reflexivity).
  destruct (users_table_one_row_per_distinct_tuple identity_engine lake_input lake_output
              level_change st H1 H2) as (u & Hu & _ & Hnd & _).
  split; [exact H1|]. split; [exact H2|].
  exists u. split; [exact Hu|]. split; [exact Hnd|].
  vm_compute in Hu. injection Hu as <-. reflexivity.
Defined.

Lemma main_runs_only_the_log_branch_witness :
  output_location one_play = Some lake_output /\
  main identity_engine one_play
  = process_log_data identity_engine PSession (PStr "s3a://udacity-dend/") (PStr lake_output)
      (at_line164 one_play lake_output) /\
  local (snd (main identity_engine one_play)) "spark" = Some PSession.
Proof.
  assert (H : output_location one_play = Some lake_output) by (vm_compute; reflexivity).
  split; [exact H|].
  destruct (main_runs_only_the_log_branch identity_engine one_play)
    as (_ & evs & _ & _ & Hsome & _).
  split; [exact (proj1 (Hsome _ H))|].
  vm_compute. reflexivity.
Defined.

Lemma branches_raise_before_any_write_witness :
  (fs twin_records !! "song_data"
   = Some (mkStored [] (mkDF catalog_columns [hound_dog; hound_dog])) /\
   has_columns (mkDF catalog_columns [hound_dog; hound_dog]) songs_cols = true /\
   fst (process_song_data identity_engine PSession (PStr lake_input) (PStr lake_output)
          twin_records) = Raise (NameError "songs_tables")) /\
  (fs one_play !! log_path lake_input
   = Some (mkStored [] (mkDF log_columns [elvis_play])) /\
   has_columns (mkDF log_columns [elvis_play]) ("page" :: users_cols) = true /\
   fst (process_log_data identity_engine PSession (PStr lake_input) (PStr lake_output)
          one_play)
   = Raise (TypeError "show() got an unexpected keyword argument 'truncated'")) /\
  (bound_in log_names before_line103 /\
   local before_line103 "users_table"
   = Some (PDataFrame (mkDF users_cols
             [[VStr "8"; VStr "Ann"; VStr "Lee"; VStr "F"; VStr "free"]])) /\
   log_line103 identity_engine before_line103
   = (Raise (NameError "output"), before_line103)).
Proof.
  assert (H1 : fs twin_records !! "song_data"
               = Some (mkStored [] (mkDF catalog_columns [hound_dog; hound_dog])))
    by (vm_compute; reflexivity).
  assert (H2 : has_columns (table (mkStored [] (mkDF catalog_columns [hound_dog; hound_dog])))
                 songs_cols = true) by (vm_compute; reflexivity).
  assert (H3 : fs one_play !! log_path lake_input
               = Some (mkStored [] (mkDF log_columns [elvis_play])))
    by (vm_compute; reflexivity).
  assert (H4 : has_columns (table (mkStored [] (mkDF log_columns [elvis_play])))
                 ("page" :: users_cols) = true) by (vm_compute; reflexivity).
  assert (H5 : bound_in log_names before_line103)
    by (unfold bound_in, local; apply params_bound; vm_compute; reflexivity).
  assert (H6 : local before_line103 "users_table"
               = Some (PDataFrame (mkDF users_cols
                         [[VStr "8"; VStr "Ann"; VStr "Lee"; VStr "F"; VStr "free"]])))
    by (vm_compute; reflexivity).
  split; [|split].
  - split; [exact H1|]. split; [exact H2|].
    exact (proj1 (proj2 (proj2 (branches_raise_before_any_write identity_engine twin_records)))
             lake_input lake_output _ H1 H2).
  - split; [exact H3|]. split; [exact H4|].
    exact (proj1 (proj2 (proj2 (proj2
             (branches_raise_before_any_write identity_engine one_play))))
             lake_input lake_output _ H3 H4).
  - split; [exact H5|]. split; [exact H6|].
    exact (proj2 (proj2 (proj2 (proj2
             (branches_raise_before_any_write identity_engine before_line103))))
             _ H5 H6).
Defined.

Lemma song_branch_ignores_input_data_witness :
  let st := mkStored [] (mkDF catalog_columns [hound_dog; hound_dog]) in
  let r1 := process_song_data identity_engine PSession (PStr lake_input) (PStr lake_output)
              twin_records in
  let r2 := process_song_data identity_engine PSession (PStr "s3a://elsewhere/")
              (PStr lake_output) twin_records in
  fs twin_records !! "song_data" = Some st /\
  has_columns (table st) songs_cols = true /\
  fst r1 = fst r2 /\
  local (snd r1) "songs_table"
  = Some (PDataFrame (distinct_projection identity_engine songs_cols (table st))) /\
  local (snd r2) "songs_table"
  = Some (PDataFrame (distinct_projection identity_engine songs_cols (table st))).
Proof.
  intros st r1 r2.
  assert (H1 : fs twin_records !! "song_data" = Some st) by (vm_compute; reflexivity).
  assert (H2 : has_columns (table st) songs_cols = true) by (vm_compute; reflexivity).
  destruct (song_branch_ignores_input_data identity_engine PSession lake_input
              "s3a://elsewhere/" (PStr lake_output) twin_records)
    as (Hr & _ & _ & _ & Hst).
  destruct (Hst st lake_output eq_refl eq_refl H1 H2) as (_ & Ha & Hb).
  repeat split; assumption.
Defined.

(** * More of the script *)

(** ** The module body and the entry point *)

Ltac os_step :=
  first [ progress change ("os" +:+ "." +:+ "environ") with "os.environ"
        | progress change ("os" +:+ "." +:+ "path") with "os.path" ].

(** X1.  Lines 12-13, the configuration giving both credentials: they are
    copied into the environment and nothing else changes. *)
Theorem module_body_exports_credentials s kv key secret :
  local s "config" = None -> local s "os" = None ->
  config s !! "AWS" = Some kv ->
  kv !! "AWS_ACCESS_KEY_ID" = Some key ->
  kv !! "AWS_SECRET_ACCESS_KEY" = Some secret ->
  module_body s =
  (Ok tt, mkState (fs s) (config s)
            (<["AWS_SECRET_ACCESS_KEY" := secret]>
               (<["AWS_ACCESS_KEY_ID" := key]> (environ s)))
            (frame s) (trace s)).
Proof.
  unfold local. destruct s as [f c e fr tr]. cbn [frame config environ fs trace].
  intros Hc Ho Hsec Hkey Hsecret. unfold module_body.
  repeat (progress cbn -[lookup insert] || os_step || rewrite Hc || rewrite Ho || rewrite Hsec
          || rewrite Hkey || rewrite Hsecret).
  reflexivity.
Qed.

(** X2.  Lines 12-13 and 167-168, a credential missing: the script raises
    the KeyError of the missing section or key and [main] is not
    entered; when only the secret is missing, the access key has
    already been put into the environment. *)
Theorem missing_credentials_stop_the_script E s :
  local s "config" = None -> local s "os" = None ->
  (config s !! "AWS" = None -> script E s = (Raise (KeyError "AWS"), s)) /\
  (forall kv, config s !! "AWS" = Some kv -> kv !! "AWS_ACCESS_KEY_ID" = None ->
     script E s = (Raise (KeyError "AWS_ACCESS_KEY_ID"), s)) /\
  (forall kv key, config s !! "AWS" = Some kv -> kv !! "AWS_ACCESS_KEY_ID" = Some key ->
     kv !! "AWS_SECRET_ACCESS_KEY" = None ->
     script E s =
     (Raise (KeyError "AWS_SECRET_ACCESS_KEY"),
      mkState (fs s) (config s) (<["AWS_ACCESS_KEY_ID" := key]> (environ s))
              (frame s) (trace s))).
Proof.
  unfold local. destruct s as [f c e fr tr]. cbn [frame config environ fs trace].
  intros Hc Ho. unfold script, module_body.
  split; [|split].
  - intros Hsec.
    repeat (progress cbn -[lookup insert main] || os_step || rewrite Hc || rewrite Ho || rewrite Hsec).
    reflexivity.
  - intros kv Hsec Hkey.
    repeat (progress cbn -[lookup insert main] || os_step || rewrite Hc || rewrite Ho || rewrite Hsec
            || rewrite Hkey).
    reflexivity.
  - intros kv key Hsec Hkey Hsecret.
    repeat (progress cbn -[lookup insert main] || os_step || rewrite Hc || rewrite Ho || rewrite Hsec
            || rewrite Hkey || rewrite Hsecret).
    reflexivity.
Qed.

(** X3.  Lines 159-161, the configuration giving no output location: [main]
    creates the session and raises the KeyError of the missing section
    or key; [process_log_data] is not entered and nothing is read. *)
Theorem main_without_output_location E s :
  (config s !! "S3" = None -> fst (main E s) = Raise (KeyError "S3")) /\
  (forall kv, config s !! "S3" = Some kv -> kv !! "OUTPUT_DATA" = None ->
     fst (main E s) = Raise (KeyError "OUTPUT_DATA")) /\
  (output_location s = None ->
     fs (snd (main E s)) = fs s /\
     trace (snd (main E s)) = trace s ++ [ECall "main"; ECall "create_spark_session"]).
Proof.
  destruct s as [f c e fr tr]. unfold output_location. cbn [frame config environ fs trace].
  unfold main, enter, create_spark_session, enter.
  split; [|split].
  - intros Hsec.
    repeat (progress cbn -[lookup insert process_log_data] || rewrite Hsec). reflexivity.
  - intros kv Hsec Hkey.
    repeat (progress cbn -[lookup insert process_log_data] || rewrite Hsec || rewrite Hkey).
    reflexivity.
  - destruct (c !! "S3") as [kv|] eqn:Hsec.
    + intros Hkey.
      repeat (progress cbn -[lookup insert process_log_data] || rewrite Hsec || rewrite Hkey).
      by rewrite <- app_assoc.
    + intros _.
      repeat (progress cbn -[lookup insert process_log_data] || rewrite Hsec).
      by rewrite <- app_assoc.
Qed.

(** X4.  The whole script, lines 9-168, with the credentials and the output
    location configured and a readable log: the log is read from
    ['s3a://udacity-dend/log_data/*.json'] whatever the configuration
    says, the schema of the users table is printed, and the run ends in
    the TypeError of line 99 with the credentials in the environment and
    storage as it was. *)
Theorem full_run_prints_the_users_schema_and_fails E store cfg aws key secret s3 out st :
  cfg !! "AWS" = Some aws ->
  aws !! "AWS_ACCESS_KEY_ID" = Some key ->
  aws !! "AWS_SECRET_ACCESS_KEY" = Some secret ->
  cfg !! "S3" = Some s3 ->
  s3 !! "OUTPUT_DATA" = Some out ->
  store !! log_path "s3a://udacity-dend/" = Some st ->
  has_columns (table st) ("page" :: users_cols) = true ->
  let r := script E (start store cfg) in
  fst r = Raise (TypeError "show() got an unexpected keyword argument 'truncated'") /\
  fs (snd r) = store /\
  environ (snd r) = <["AWS_SECRET_ACCESS_KEY" := secret]> (<["AWS_ACCESS_KEY_ID" := key]> ∅) /\
  trace (snd r) = [ ECall "main"; ECall "create_spark_session"; ECall "process_log_data";
                    ERead (log_path "s3a://udacity-dend/"); EPrintSchema users_cols ].
Proof.
  intros Haws Hkey Hsecret Hs3 Hout Hst Hc r. subst r.
  unfold script.
  change (bind module_body ?k ?s) with
    (match module_body s with (Ok a, s') => k a s' | (Raise e, s') => (Raise e, s') end).
  rewrite (module_body_exports_credentials (start store cfg) aws key secret
             eq_refl eq_refl Haws Hkey Hsecret).
  cbn [start fs config environ frame trace].
  unfold main, enter, create_spark_session, enter.
  repeat (progress cbn -[lookup insert process_log_data] || rewrite Hs3 || rewrite Hout).
  match goal with |- context [process_log_data E ?a ?b ?c ?t] =>
    rewrite (process_log_data_run E "s3a://udacity-dend/" out t st Hst Hc)
  end.
  cbn -[lookup insert]. done.
Qed.

(** ** Statements that raise in every state *)

(** A tame statement that always raises leaves storage alone. *)
Lemma raises_and_keeps_storage {A} names (m : M A) R s :
  tame names m R -> aborts names m -> bound_in names s ->
  exists e, fst (m s) = Raise e /\ fs (snd (m s)) = fs s.
Proof.
  intros Ht Ha Hs. destruct (Ha s Hs) as [e He]. destruct (Ht s Hs) as [[Hfs _ _ _] _].
  eauto.
Qed.

(** X5.  Lines 52 and 65: whatever [process_song_data] has bound, each raises
    the NameError of its misspelt table name and changes nothing; the
    artists write of line 68 comes after both. *)
Theorem song_branch_show_lines_raise_name_errors E s :
  bound_in song_all_names s ->
  song_line52 E s = (Raise (NameError "songs_tables"), s) /\
  song_line65 E s = (Raise (NameError "artist_table"), s).
Proof.
  intros Hb.
  pose proof (Hb "songs_tables" eq_refl) as H1. pose proof (Hb "artist_table" eq_refl) as H2.
  unfold local in *. destruct s as [f c e fr tr]. cbn [frame] in *.
  unfold song_line52, song_line65.
  split; cbn -[lookup insert]; [rewrite H1 | rewrite H2]; reflexivity.
Qed.

Section More_aborts.
Context (E : Engine).

Lemma tame_show_truncated table :
  tame log_all_names (show_truncated E table) (fun _ => True).
Proof. unfold show_truncated. tame_stmt. Qed.

Lemma aborts_show_truncated table : aborts log_all_names (show_truncated E table).
Proof.
  unfold show_truncated.
  eapply aborts_after; [apply tame_name | intros t _ s _].
  apply show_truncated_raises.
Qed.

(** [os.path.join(output, file)]: [output] is no local of the function,
    no global and no builtin. *)
Lemma tame_joined_output file :
  tame log_all_names (joined_path E "output" file) (fun _ => True).
Proof. unfold joined_path. tame_stmt. Qed.

Lemma aborts_joined_output file : aborts log_all_names (joined_path E "output" file).
Proof.
  unfold joined_path.
  eapply aborts_after; [apply tame_name | intros o _].
  eapply aborts_after; [apply tame_getattr | intros p _].
  eapply aborts_after; [apply tame_getattr | intros j _].
  apply aborts_bind, aborts_name; reflexivity.
Qed.

Lemma tame_write_to_output table file :
  tame log_all_names
    (t <- name table ;;
     w <- getattr t "write" ;;
     m <- getattr w "parquet" ;;
     path <- joined_path E "output" file ;;
     call E m [path; PStr "overwrite"] [] ;; ret tt) (fun _ => True).
Proof.
  eapply tame_bind; [apply tame_name | intros t _].
  eapply tame_bind; [apply tame_getattr | intros w _].
  eapply tame_bind; [apply tame_getattr | intros m _].
  eapply tame_cut; [apply tame_joined_output | apply aborts_joined_output].
Qed.

Lemma aborts_write_to_output table file :
  aborts log_all_names
    (t <- name table ;;
     w <- getattr t "write" ;;
     m <- getattr w "parquet" ;;
     path <- joined_path E "output" file ;;
     call E m [path; PStr "overwrite"] [] ;; ret tt).
Proof.
  eapply aborts_after; [apply tame_name | intros t _].
  eapply aborts_after; [apply tame_getattr | intros w _].
  eapply aborts_after; [apply tame_getattr | intros m _].
  apply aborts_bind, aborts_joined_output.
Qed.

(** X6.  Lines 99, 125 and 151 call [show] with the keyword [truncated], and
    lines 103 and 129 name [output]: whatever [process_log_data] has
    bound, each of the five raises and leaves storage as it was, so the
    users and the time table cannot be written. *)
Theorem log_branch_shows_and_output_writes_raise s :
  bound_in log_all_names s ->
  let raises (line : M unit) :=
    exists e, fst (line s) = Raise e /\ fs (snd (line s)) = fs s in
  raises (log_line99 E) /\ raises (log_line103 E) /\ raises (log_line125 E) /\
  raises (log_line129 E) /\ raises (log_line151 E).
Proof.
  intros Hs raises. subst raises. cbv beta.
  pose proof (raises_and_keeps_storage _ _ _ s (tame_show_truncated "users_table")
                (aborts_show_truncated "users_table") Hs) as H99.
  pose proof (raises_and_keeps_storage _ _ _ s (tame_show_truncated "time_table")
                (aborts_show_truncated "time_table") Hs) as H125.
  pose proof (raises_and_keeps_storage _ _ _ s (tame_show_truncated "songplays_table")
                (aborts_show_truncated "songplays_table") Hs) as H151.
  pose proof (raises_and_keeps_storage _ _ _ s
                (tame_write_to_output "users_table" "users_table.parquet")
                (aborts_write_to_output "users_table" "users_table.parquet") Hs) as H103.
  pose proof (raises_and_keeps_storage _ _ _ s
                (tame_write_to_output "time_table" "time_table.parquet")
                (aborts_write_to_output "time_table" "time_table.parquet") Hs) as H129.
  repeat split; assumption.
Qed.

(** No attribute of an object of the script is a string. *)
Lemma getattr_not_str o a s v : fst (getattr o a s) = Ok v -> forall x, v <> PStr x.
Proof.
  unfold getattr. repeat case_match; unfold ret, raise; cbn [fst]; intros [= <-] x; done.
Qed.

Lemma tame_col_of_attr names var attr :
  mem "col" names = false ->
  tame names (col_of_attr E var attr) (fun _ => True).
Proof.
  intros Hcol. unfold col_of_attr.
  eapply tame_bind; [by apply tame_name_global | intros ? ->].
  eapply tame_bind; [apply tame_name | intros o _].
  eapply tame_bind; [apply tame_getattr | intros a _].
  by apply tame_call.
Qed.

(** [col(<var>.<attr>)] raises whatever [var] is bound to: [col] takes
    the name of a column, and no attribute is a string. *)
Lemma aborts_col_of_attr names var attr :
  mem "col" names = false -> aborts names (col_of_attr E var attr).
Proof.
  intros Hcol. unfold col_of_attr.
  eapply aborts_after; [by apply tame_name_global | intros ? ->].
  eapply aborts_after; [apply tame_name | intros o _].
  eapply aborts_after with (R := fun a => forall x, a <> PStr x).
  { apply tame_stateless; [apply getattr_state|].
    intros s v Hv. by eapply getattr_not_str. }
  intros a Ha s _. destruct a; cbn; eauto. by destruct (Ha s0).
Qed.

Lemma tame_log_line135 : tame log_names_at_135 (log_line135 E) (fun _ => True).
Proof.
  unfold log_line135.
  eapply tame_bind; [apply tame_name | intros d _].
  eapply tame_bind; [apply tame_getattr | intros m Hm].
  eapply tame_bind; [apply tame_name | intros other _].
  eapply tame_cut; [by apply tame_col_of_attr | by apply aborts_col_of_attr].
Qed.

Lemma aborts_log_line135 : aborts log_names_at_135 (log_line135 E).
Proof.
  unfold log_line135.
  eapply aborts_after; [apply tame_name | intros d _].
  eapply aborts_after; [apply tame_getattr | intros m Hm].
  eapply aborts_after; [apply tame_name | intros other _].
  by apply aborts_bind, aborts_col_of_attr.
Qed.

(** X7.  Line 135: the operands of the join condition are
    [col(<frame>.<name>)], and [col] takes the name of a column, not a
    column.  So whatever [process_log_data] has bound before, the
    statement raises, binds no [join_table] and leaves storage as it
    was; and with [df] a data frame that has an [artist] column it
    raises where its first operand [col(df.artist)] does, in the state
    as it was, whatever [song_df] is bound to, the path string of line
    132 or a data frame. *)
Theorem join_statement_always_raises s :
  bound_in log_names_at_135 s ->
  (exists e,
     fst (log_line135 E s) = Raise e /\
     fs (snd (log_line135 E s)) = fs s /\
     local (snd (log_line135 E s)) "join_table" = None) /\
  (forall d v,
     local s "df" = Some (PDataFrame d) -> mem "artist" (columns d) = true ->
     local s "song_df" = Some v ->
     exists e,
       col_of_attr E "df" "artist" s = (Raise e, s) /\
       log_line135 E s = (Raise e, s)).
Proof.
  intros Hs. split.
  - destruct (aborts_log_line135 s Hs) as [e He].
    destruct (tame_log_line135 s Hs) as [[Hfs _ Hb _] _].
    exists e. split; [done|]. split; [done|]. by apply Hb.
  - intros d v Hd Hartist Hv.
    pose proof (Hs "col" eq_refl) as Hcol.
    unfold local in *. destruct s as [f c e fr tr]. cbn [frame] in *.
    unfold log_line135, col_of_attr.
    eexists. split.
    + repeat (progress cbn -[lookup insert] || mem_step || rewrite Hd || rewrite Hcol).
      reflexivity.
    + repeat (progress cbn -[lookup insert] || mem_step || rewrite Hd || rewrite Hv
              || rewrite Hcol).
      reflexivity.
Qed.
End More_aborts.

(** ** The writes that name [output_data] *)

#[local] Arguments write_refused : simpl never.

Section More_writes.
Context (E : Engine).

Lemma write_plain_runs table var file s d root :
  local s table = Some (PDataFrame d) -> local s var = Some (PStr root) ->
  local s "os" = None -> write_refused d [] = None ->
  write_plain E table var file s
  = (Ok tt, after_write s (path_join root file) (mkStored [] d)).
Proof.
  unfold local, after_write. destruct s as [f c e fr tr]. cbn [frame config environ fs trace].
  intros Ht Hv Ho Hw. unfold write_plain, joined_path.
  repeat (progress cbn -[lookup insert path_join] || os_step || rewrite Ht || rewrite Hv
          || rewrite Ho || rewrite Hw).
  reflexivity.
Qed.

Lemma write_partitioned_runs table p1 p2 var file s d root :
  local s table = Some (PDataFrame d) -> local s var = Some (PStr root) ->
  local s "os" = None -> write_refused d [p1; p2] = None ->
  write_partitioned E table p1 p2 var file s
  = (Ok tt, after_write s (path_join root file) (mkStored [p1; p2] d)).
Proof.
  unfold local, after_write. destruct s as [f c e fr tr]. cbn [frame config environ fs trace].
  intros Ht Hv Ho Hw. unfold write_partitioned, joined_path.
  repeat (progress cbn -[lookup insert path_join] || os_step || rewrite Ht || rewrite Hv
          || rewrite Ho || rewrite Hw).
  reflexivity.
Qed.

Lemma fs_after_write_twice s p t :
  fs (after_write (after_write s p t) p t) = fs (after_write s p t).
Proof. unfold after_write. cbn [fs]. apply insert_insert_eq. Qed.

(** The writer accepts a frame with the columns [cols] when it accepts
    these columns. *)
Lemma write_accepted d cols parts :
  columns d = cols -> write_refused (mkDF cols []) parts = None ->
  write_refused d parts = None.
Proof. intros <-. done. Qed.

(** X8.  Lines 58, 68 and 155, run in a frame that binds [output_data]
    to a string and the table to a data frame with the columns the
    function gives it (those of lines 48, 61 and 137-148): each
    completes, records one write with mode ['overwrite'], and leaves its
    table, partitioned as the line says, under
    [os.path.join(output_data, <file>)] in place of whatever was there;
    run a second time it leaves storage as the first run did.  A songs
    table without a [year] column is refused by the writer of line 58,
    and storage stays as it was. *)
Theorem output_data_writes_replace_their_destination s root :
  local s "output_data" = Some (PStr root) -> local s "os" = None ->
  (forall d, local s "songs_table" = Some (PDataFrame d) ->
     (columns d = songs_cols ->
      let s' := after_write s (path_join root "songs_table.parquet")
                  (mkStored ["year"; "artist_id"] d) in
      song_line58 E s = (Ok tt, s') /\ fs (snd (song_line58 E s')) = fs s') /\
     (has_column (columns d) "year" = false ->
      exists e, song_line58 E s = (Raise e, s))) /\
  (forall d, local s "artists_table" = Some (PDataFrame d) -> columns d = artists_cols ->
     let s' := after_write s (path_join root "artists_table.parquet") (mkStored [] d) in
     song_line68 E s = (Ok tt, s') /\ fs (snd (song_line68 E s')) = fs s') /\
  (forall d, local s "songplays_table" = Some (PDataFrame d) -> columns d = songplays_cols ->
     let s' := after_write s (path_join root "songplays_table.parquet")
                 (mkStored ["year"; "month"] d) in
     log_line155 E s = (Ok tt, s') /\ fs (snd (log_line155 E s')) = fs s').
Proof.
  intros Hroot Hos. split; [|split].
  - intros d Hd. split.
    + intros Hcols s'.
      assert (Hw : write_refused d ["year"; "artist_id"] = None)
        by (by apply (write_accepted d songs_cols)).
      pose proof (write_partitioned_runs "songs_table" "year" "artist_id" "output_data"
                    "songs_table.parquet") as H.
      split; [exact (H s d root Hd Hroot Hos Hw)|].
      change (song_line58 E) with
        (write_partitioned E "songs_table" "year" "artist_id" "output_data"
           "songs_table.parquet").
      rewrite (H s' d root Hd Hroot Hos Hw). apply fs_after_write_twice.
    + intros Hyear.
      unfold local in *. destruct s as [f c e fr tr]. cbn [frame] in *.
      unfold song_line58, joined_path.
      assert (Hw : exists e', write_refused d ["year"; "artist_id"] = Some e').
      { unfold write_refused. destruct (Nat.eqb _ 0); [eauto|].
        cbn [List.find]. rewrite Hyear. cbn [negb]. eauto. }
      destruct Hw as [e' Hw]. exists e'.
      repeat (progress cbn -[lookup insert path_join] || os_step || rewrite Hd
              || rewrite Hroot || rewrite Hos || rewrite Hw).
      reflexivity.
  - intros d Hd Hcols s'.
    assert (Hw : write_refused d [] = None) by (by apply (write_accepted d artists_cols)).
    pose proof (write_plain_runs "artists_table" "output_data" "artists_table.parquet") as H.
    split; [exact (H s d root Hd Hroot Hos Hw)|].
    change (song_line68 E) with
      (write_plain E "artists_table" "output_data" "artists_table.parquet").
    rewrite (H s' d root Hd Hroot Hos Hw). apply fs_after_write_twice.
  - intros d Hd Hcols s'.
    assert (Hw : write_refused d ["year"; "month"] = None)
      by (by apply (write_accepted d songplays_cols)).
    pose proof (write_partitioned_runs "songplays_table" "year" "month" "output_data"
                  "songplays_table.parquet") as H.
    split; [exact (H s d root Hd Hroot Hos Hw)|].
    change (log_line155 E) with
      (write_partitioned E "songplays_table" "year" "month" "output_data"
         "songplays_table.parquet").
    rewrite (H s' d root Hd Hroot Hos Hw). apply fs_after_write_twice.
Qed.
End More_writes.

(** ** The five destinations *)

Lemma append_inj_r a x y : a +:+ x = a +:+ y -> x = y.
Proof. induction a as [|c a IH]; cbn; [done|]. intros [= H]. auto. Qed.

Lemma prefix_append a b : String.prefix a (a +:+ b) = true.
Proof.
  induction a as [|c a IH].
  - change ("" +:+ b) with b. by destruct b.
  - change (String c a +:+ b) with (String c (a +:+ b)). cbn [String.prefix].
    destruct (Ascii.ascii_dec c c); [exact IH | done].
Qed.

(** [os.path.join] on a name that does not start with a slash. *)
Lemma path_join_relative root file :
  String.prefix "/" file = false ->
  path_join root file = root +:+ separator root +:+ file.
Proof.
  intros H. unfold path_join, separator. rewrite H.
  by destruct (String.eqb root "" || ends_with_slash root).
Qed.

Lemma path_join_inj root f1 f2 :
  String.prefix "/" f1 = false -> String.prefix "/" f2 = false ->
  path_join root f1 = path_join root f2 -> f1 = f2.
Proof.
  intros H1 H2. rewrite !path_join_relative by done.
  intros H%append_inj_r%append_inj_r. exact H.
Qed.

(** X9.  Whatever the output root, the five tables have five different
    destinations, each under the root. *)
Theorem destinations_are_distinct_and_under_the_root root :
  NoDup (map (path_join root) table_files) /\
  Forall (fun file => String.prefix root (path_join root file) = true) table_files.
Proof.
  split.
  - unfold table_files. cbn [map].
    repeat (apply NoDup_cons; split;
            [rewrite ?elem_of_cons, elem_of_nil; intros H; destruct_or!; try done;
             apply path_join_inj in H; done |]).
    apply NoDup_nil. done.
  - unfold table_files.
    repeat (apply List.Forall_cons; [rewrite path_join_relative by done; apply prefix_append|]).
    apply List.Forall_nil.
Qed.

(** ** The tables the branches build before they raise *)

(** X10.  Lines 45-48, a readable catalog with the five song columns:
    [songs_table] has these columns, no row twice, and exactly the song
    tuples of the catalog, which is read from ['song_data']. *)
Theorem songs_table_one_row_per_distinct_tuple E input_data output_data s st :
  fs s !! "song_data" = Some st ->
  has_columns (table st) songs_cols = true ->
  let s' := snd (process_song_data E PSession (PStr input_data) (PStr output_data) s) in
  exists t,
    local s' "songs_table" = Some (PDataFrame t) /\
    columns t = songs_cols /\
    NoDup (rows t) /\
    (forall x, x ∈ rows t <->
       exists r, r ∈ rows (table st) /\ x = project songs_cols (table st) r).
Proof.
  intros Hst Hc s'. subst s'. rewrite (process_song_data_run E _ _ _ _ Hst Hc).
  cbn [snd]. unfold local. cbn [frame assoc String.eqb Ascii.eqb Bool.eqb].
  eexists. split; [reflexivity|].
  split; [apply columns_distinct_projection|].
  split; [apply NoDup_distinct_projection|].
  intros x. apply elem_of_distinct_projection.
Qed.

(** X11.  Lines 91-97: the users table is a function of the set of ['NextSong']
    records.  Two logs with the same columns and the same such records,
    in any order and with any repetitions and any other records, give
    users tables with the same rows. *)
Theorem users_table_depends_on_the_plays_only E input_data output_data s1 s2 st1 st2 :
  fs s1 !! log_path input_data = Some st1 ->
  fs s2 !! log_path input_data = Some st2 ->
  has_columns (table st1) ("page" :: users_cols) = true ->
  columns (table st2) = columns (table st1) ->
  (forall r, field (columns (table st1)) r "page" = VStr "NextSong" ->
     (r ∈ rows (table st1) <-> r ∈ rows (table st2))) ->
  exists u1 u2,
    local (snd (process_log_data E PSession (PStr input_data) (PStr output_data) s1))
      "users_table" = Some (PDataFrame u1) /\
    local (snd (process_log_data E PSession (PStr input_data) (PStr output_data) s2))
      "users_table" = Some (PDataFrame u2) /\
    columns u1 = columns u2 /\
    forall t, t ∈ rows u1 <-> t ∈ rows u2.
Proof.
  intros H1 H2 Hc1 Hcols Hsame.
  assert (Hc2 : has_columns (table st2) ("page" :: users_cols) = true)
    by (unfold has_columns; rewrite Hcols; exact Hc1).
  rewrite (process_log_data_run E _ _ _ _ H1 Hc1), (process_log_data_run E _ _ _ _ H2 Hc2).
  cbn [snd]. unfold local. cbn [frame assoc String.eqb Ascii.eqb Bool.eqb].
  eexists _, _. split; [reflexivity|]. split; [reflexivity|].
  split; [by rewrite !columns_distinct_projection|].
  assert (Hp : forall r,
    project users_cols (df_filter E is_next_song (table st2)) r
    = project users_cols (df_filter E is_next_song (table st1)) r)
    by (intros r; unfold project; by rewrite !columns_df_filter, Hcols).
  intros t. rewrite !elem_of_distinct_projection.
  split; intros (r & Hr & ->); exists r;
    apply elem_of_rows_df_filter in Hr as [Hr Hpage].
  - split; [|by rewrite Hp].
    apply elem_of_rows_df_filter. rewrite Hcols. split; [by apply Hsame | done].
  - rewrite Hcols in Hpage. split; [|by rewrite Hp].
    apply elem_of_rows_df_filter. split; [by apply Hsame | done].
Qed.

(** ** The branches and their [output_data] *)

Section Alike.
Context (names hidden : list string).

Lemma alike_bind {A B} (m : M A) (k : A -> M B) R :
  blind hidden m -> tame names m R -> (forall a, alike names hidden (k a)) ->
  alike names hidden (bind m k).
Proof.
  intros Hb Ht Hk s1 s2 Hag H1 H2.
  destruct (Hb s1 s2 Hag) as [Hr Hs].
  destruct (Ht s1 H1) as [[_ _ Hb1 _] _]. destruct (Ht s2 H2) as [[_ _ Hb2 _] _].
  unfold bind. destruct (m s1) as [r1 t1], (m s2) as [r2 t2]. cbn [fst snd] in *.
  subst r2. destruct r1 as [a|e]; [by apply Hk | done].
Qed.

(** What follows a statement that always raises does not matter. *)
Lemma alike_cut {A B} (m : M A) (k : A -> M B) :
  blind hidden m -> aborts names m -> alike names hidden (bind m k).
Proof.
  intros Hb Ha s1 s2 Hag H1 H2.
  destruct (Hb s1 s2 Hag) as [Hr Hs].
  destruct (Ha s1 H1) as [e1 He1]. destruct (Ha s2 H2) as [e2 He2].
  unfold bind. destruct (m s1) as [r1 t1], (m s2) as [r2 t2]. cbn [fst snd] in *.
  subst. done.
Qed.

(** Two calls of a function whose body is alike, with arguments that
    differ in the hidden parameters only. *)
Lemma enter_alike {A} f p1 p2 (body : M A) s :
  alike names hidden body ->
  (forall x, mem x hidden = false -> assoc x p1 = assoc x p2) ->
  forallb (fun p => mem (fst p) names) p1 = true ->
  forallb (fun p => mem (fst p) names) p2 = true ->
  fst (enter f p1 body s) = fst (enter f p2 body s) /\
  agree hidden (snd (enter f p1 body s)) (snd (enter f p2 body s)).
Proof.
  intros Hal Hp Hb1 Hb2. unfold enter.
  set (s1 := mkState _ _ _ p1 _). set (s2 := mkState _ _ _ p2 _).
  assert (Hag : agree hidden s1 s2) by (repeat split; done).
  assert (H1 : bound_in names s1) by exact (params_bound names p1 Hb1).
  assert (H2 : bound_in names s2) by exact (params_bound names p2 Hb2).
  destruct (Hal s1 s2 Hag H1 H2) as [Hr Hs].
  destruct (body s1) as [r1 t1], (body s2) as [r2 t2]. cbn [fst snd] in *.
  subst r2. destruct r1 as [a|e]; cbn [fst snd]; [|done].
  split; [done|]. destruct Hs as (Ha & Hb & Hc & Hd & He). repeat split; done.
Qed.
End Alike.

Ltac blind_all :=
  repeat first
    [ apply blind_assign
    | apply blind_ret
    | apply blind_call
    | apply blind_getattr
    | apply blind_py_add
    | apply blind_py_eq
    | apply blind_py_and
    | apply blind_py_truth
    | apply blind_name; reflexivity
    | apply blind_bind; [ | intros ? ] ].

Section Output_data.
Context (E : Engine).

Lemma params_agree_off_output_data spark input_data out1 out2 x :
  mem x ["output_data"] = false ->
  assoc x [("spark", spark); ("input_data", input_data); ("output_data", out1)]
  = assoc x [("spark", spark); ("input_data", input_data); ("output_data", out2)].
Proof.
  intros Hx. cbn.
  destruct (String.eqb_spec x "spark"); [done|].
  destruct (String.eqb_spec x "input_data"); [done|].
  destruct (String.eqb_spec x "output_data") as [->|]; [discriminate Hx | done].
Qed.

Lemma alike_song_body :
  alike song_names ["output_data"]
    (song_line42 ;; song_line45 E ;; song_line48 E ;; song_line51 E ;; song_line52 E ;;
     song_line55 E ;; song_line58 E ;; song_line61 E ;; song_line64 E ;; song_line65 E ;;
     song_line68 E).
Proof.
  eapply alike_bind; [unfold song_line42; blind_all | apply tame_song_line42 | intros _].
  eapply alike_bind; [unfold song_line45; blind_all | apply tame_song_line45 | intros _].
  eapply alike_bind; [unfold song_line48; blind_all | apply tame_song_line48 | intros _].
  eapply alike_bind; [unfold song_line51; blind_all | apply tame_song_line51 | intros _].
  apply alike_cut; [unfold song_line52; blind_all | apply aborts_song_line52].
Qed.

Lemma alike_log_body :
  alike log_names ["output_data"]
    (log_line88 ;; log_line91 E ;; log_line94 E ;; log_line97 E ;; log_line98 E ;;
     log_line99 E ;; log_line103 E ;; log_line106 E ;; log_line107 E ;; log_line110 E ;;
     log_line111 E ;; log_line114 E ;; log_line124 E ;; log_line125 E ;; log_line129 E ;;
     log_line132 ;; log_line135 E ;; log_line137 E ;; log_line150 E ;; log_line151 E ;;
     log_line155 E).
Proof.
  eapply alike_bind; [unfold log_line88; blind_all | apply tame_log_line88 | intros _].
  eapply alike_bind; [unfold log_line91; blind_all | apply tame_log_line91 | intros _].
  eapply alike_bind; [unfold log_line94; blind_all | apply tame_log_line94 | intros _].
  eapply alike_bind; [unfold log_line97; blind_all | apply tame_log_line97 | intros _].
  eapply alike_bind;
    [unfold log_line98, print_schema; blind_all | apply tame_log_line98 | intros _].
  apply alike_cut;
    [unfold log_line99, show_truncated; blind_all | apply aborts_log_line99].
Qed.

(** X12.  Neither branch looks at its [output_data] before it raises: for any
    two values of the argument a call returns the same result, with the
    same storage and trace, and the same locals but [output_data]. *)
Theorem branches_ignore_output_data spark input_data out1 out2 s :
  let same (r1 r2 : result unit * state) :=
    fst r1 = fst r2 /\ fs (snd r1) = fs (snd r2) /\ trace (snd r1) = trace (snd r2) /\
    forall x, x <> "output_data" -> local (snd r1) x = local (snd r2) x in
  same (process_song_data E spark input_data out1 s)
       (process_song_data E spark input_data out2 s) /\
  same (process_log_data E spark input_data out1 s)
       (process_log_data E spark input_data out2 s).
Proof.
  intros same. subst same. cbv beta.
  assert (Hoff : forall x, x <> "output_data" -> mem x ["output_data"] = false).
  { intros x Hx. cbn. by destruct (String.eqb_spec x "output_data"). }
  split.
  - destruct (enter_alike song_names ["output_data"] "process_song_data"
                [("spark", spark); ("input_data", input_data); ("output_data", out1)]
                [("spark", spark); ("input_data", input_data); ("output_data", out2)]
                _ s alike_song_body
                (params_agree_off_output_data spark input_data out1 out2) eq_refl eq_refl)
      as (Hr & Hfs & _ & _ & Htr & Hl).
    unfold process_song_data. repeat split; auto.
  - destruct (enter_alike log_names ["output_data"] "process_log_data"
                [("spark", spark); ("input_data", input_data); ("output_data", out1)]
                [("spark", spark); ("input_data", input_data); ("output_data", out2)]
                _ s alike_log_body
                (params_agree_off_output_data spark input_data out1 out2) eq_refl eq_refl)
      as (Hr & Hfs & _ & _ & Htr & Hl).
    unfold process_log_data. repeat split; auto.
Qed.
End Output_data.

(** ** The errors of the engine *)

Lemma unresolved_first_missing cols names :
  forallb (has_column cols) names = false ->
  exists c, In c names /\ has_column cols c = false /\
            unresolved cols (map CName names) = Some (CName c).
Proof.
  unfold unresolved. induction names as [|n ns IH]; cbn; [done|].
  destruct (has_column cols n) eqn:Hn; cbn.
  - intros (c & Hc & Hm & Hu)%IH. eauto.
  - intros _. exists n. eauto.
Qed.

Lemma unresolved_resolvable cols names :
  forallb (has_column cols) names = true ->
  unresolved cols (map CName names) = None.
Proof.
  unfold unresolved. induction names as [|n ns IH]; cbn; [done|].
  intros [H1 H2]%andb_prop. rewrite H1. cbn. auto.
Qed.

Section Engine_errors.
Context (E : Engine).

(** [process_song_data_run], for a catalog whose columns the engine
    resolves, in whatever case they are written. *)
Lemma process_song_data_resolved input_data output_data s st :
  fs s !! "song_data" = Some st ->
  resolvable (table st) songs_cols = true ->
  process_song_data E PSession (PStr input_data) (PStr output_data) s =
  (Raise (NameError "songs_tables"),
   mkState (fs s) (config s) (environ s)
     [ ("songs_table", PDataFrame (distinct_projection E songs_cols (table st)));
       ("df", PDataFrame (table st));
       ("song_data", PStr (input_data +:+ "song_data/*/*/*.json"));
       ("spark", PSession); ("input_data", PStr input_data);
       ("output_data", PStr output_data) ]
     (trace s ++ [ ECall "process_song_data"; ERead "song_data";
                   EPrintSchema songs_cols ])).
Proof.
  intros Hst Hc. apply unresolved_resolvable in Hc.
  unfold process_song_data, enter.
  unfold song_line42, song_line45, song_line48, song_line51, song_line52.
  run. rewrite Hst. run.
  change [CName "song_id"; CName "title"; CName "artist_id"; CName "year";
          CName "duration"] with (map CName songs_cols).
  rewrite Hc. run.
  rewrite <- !app_assoc. done.
Qed.

Lemma process_log_data_resolved input_data output_data s st :
  fs s !! log_path input_data = Some st ->
  mem "page" (columns (table st)) = true ->
  resolvable (table st) users_cols = true ->
  process_log_data E PSession (PStr input_data) (PStr output_data) s =
  (Raise (TypeError "show() got an unexpected keyword argument 'truncated'"),
   mkState (fs s) (config s) (environ s)
     [ ("users_table",
        PDataFrame (distinct_projection E users_cols (df_filter E is_next_song (table st))));
       ("df", PDataFrame (df_filter E is_next_song (table st)));
       ("log_data", PStr (log_path input_data));
       ("spark", PSession); ("input_data", PStr input_data);
       ("output_data", PStr output_data) ]
     (trace s ++ [ ECall "process_log_data"; ERead (log_path input_data);
                   EPrintSchema users_cols ])).
Proof.
  intros Hst Hpage Hc.
  pose proof (mem_has_column _ _ Hpage) as Hpage'.
  apply unresolved_resolvable in Hc.
  unfold log_path in *.
  unfold process_log_data, enter.
  unfold log_line88, log_line91, log_line94, log_line97, log_line98, log_line99,
    print_schema, show_truncated.
  run. rewrite Hst. run.
  change [CName "userId"; CName "firstName"; CName "lastName"; CName "gender";
          CName "level"] with (map CName users_cols).
  rewrite columns_df_filter, Hc. run.
  rewrite <- !app_assoc. done.
Qed.

(** X13.  Lines 42-48, by what the catalog is.  Whatever [input_data]
    is, the read is of ['song_data'], and a path that holds nothing
    raises the engine's error.  The engine resolves the five song
    columns without regard to case: a catalog in which one of them does
    not resolve raises the engine's error for the first such column, and
    [songs_table] is not bound; a catalog in which all five resolve
    gives a [songs_table] with the five names as line 48 writes them,
    and the run gets to line 52. *)
Theorem song_branch_engine_errors input_data output_data s :
  let r := process_song_data E PSession (PStr input_data) (PStr output_data) s in
  (fs s !! "song_data" = None ->
     fst r = Raise (path_does_not_exist "song_data") /\
     local (snd r) "songs_table" = None /\
     trace (snd r) = trace s ++ [ECall "process_song_data"; ERead "song_data"]) /\
  (forall st, fs s !! "song_data" = Some st ->
     resolvable (table st) songs_cols = false ->
     exists c, In c songs_cols /\ has_column (columns (table st)) c = false /\
               fst r = Raise (cannot_resolve c) /\
               local (snd r) "songs_table" = None) /\
  (forall st, fs s !! "song_data" = Some st ->
     resolvable (table st) songs_cols = true ->
     fst r = Raise (NameError "songs_tables") /\
     exists t, local (snd r) "songs_table" = Some (PDataFrame t) /\
               columns t = songs_cols).
Proof.
  intros r. subst r. split; [|split].
  - destruct s as [f c e fr tr]. cbn [fs trace].
    unfold process_song_data, enter.
    unfold song_line42, song_line45, song_line48, song_line51, song_line52.
    intros Hst. run. rewrite Hst. run. rewrite <- !app_assoc. done.
  - destruct s as [f c e fr tr]. cbn [fs trace].
    unfold process_song_data, enter.
    unfold song_line42, song_line45, song_line48, song_line51, song_line52.
    intros st Hst Hc.
    destruct (unresolved_first_missing _ _ Hc) as (x & Hin & Hmem & Hun).
    exists x. split; [done|]. split; [done|].
    run. rewrite Hst. run.
    change [CName "song_id"; CName "title"; CName "artist_id"; CName "year";
            CName "duration"] with (map CName songs_cols).
    rewrite Hun. unfold analysis_error, cannot_resolve. cbn -[lookup insert].
    rewrite Hmem. done.
  - intros st Hst Hc. rewrite (process_song_data_resolved _ _ _ _ Hst Hc).
    cbn [fst snd]. split; [done|].
    unfold local. cbn [frame assoc String.eqb Ascii.eqb Bool.eqb].
    eexists. split; [reflexivity | apply columns_distinct_projection].
Qed.

(** X14.  Lines 88-99, by what the log is.  A path that holds nothing
    raises the engine's error for [input_data + 'log_data/*.json'].
    Python looks [page] up among the columns as they are written: a log
    without a column of exactly this name raises the AttributeError of
    [df.page] at line 94.  The engine resolves the five user columns
    without regard to case: a log in which one of them does not resolve
    raises the engine's error for the first such column, and
    [users_table] is not bound; a log in which all five resolve gives a
    [users_table] with the five names as line 97 writes them, and the
    run gets to line 99. *)
Theorem log_branch_engine_errors input_data output_data s :
  let r := process_log_data E PSession (PStr input_data) (PStr output_data) s in
  (fs s !! log_path input_data = None ->
     fst r = Raise (path_does_not_exist (log_path input_data)) /\
     local (snd r) "users_table" = None) /\
  (forall st, fs s !! log_path input_data = Some st ->
     mem "page" (columns (table st)) = false ->
     fst r = Raise (AttributeError "DataFrame" "page") /\
     local (snd r) "users_table" = None) /\
  (forall st, fs s !! log_path input_data = Some st ->
     mem "page" (columns (table st)) = true ->
     resolvable (table st) users_cols = false ->
     exists c, In c users_cols /\ has_column (columns (table st)) c = false /\
               fst r = Raise (cannot_resolve c) /\
               local (snd r) "users_table" = None) /\
  (forall st, fs s !! log_path input_data = Some st ->
     mem "page" (columns (table st)) = true ->
     resolvable (table st) users_cols = true ->
     fst r = Raise (TypeError "show() got an unexpected keyword argument 'truncated'") /\
     exists t, local (snd r) "users_table" = Some (PDataFrame t) /\
               columns t = users_cols).
Proof.
  intros r. subst r. split; [|split; [|split]].
  - destruct s as [f c e fr tr]. cbn [fs trace]. unfold log_path.
    unfold process_log_data, enter.
    unfold log_line88, log_line91, log_line94, log_line97, log_line98, log_line99,
      print_schema, show_truncated.
    intros Hst. run. rewrite Hst. run. done.
  - destruct s as [f c e fr tr]. cbn [fs trace]. unfold log_path.
    unfold process_log_data, enter.
    unfold log_line88, log_line91, log_line94, log_line97, log_line98, log_line99,
      print_schema, show_truncated.
    intros st Hst Hpage. run. rewrite Hst. run. done.
  - destruct s as [f c e fr tr]. cbn [fs trace]. unfold log_path.
    unfold process_log_data, enter.
    unfold log_line88, log_line91, log_line94, log_line97, log_line98, log_line99,
      print_schema, show_truncated.
    intros st Hst Hpage Hc.
    pose proof (mem_has_column _ _ Hpage) as Hpage'.
    destruct (unresolved_first_missing _ _ Hc) as (x & Hin & Hmem & Hun).
    exists x. split; [done|]. split; [done|].
    run. rewrite Hst. run.
    change [CName "userId"; CName "firstName"; CName "lastName"; CName "gender";
            CName "level"] with (map CName users_cols).
    rewrite columns_df_filter, Hun. unfold analysis_error, cannot_resolve.
    cbn -[lookup insert]. rewrite ?columns_df_filter, Hmem. done.
  - intros st Hst Hpage Hc. rewrite (process_log_data_resolved _ _ _ _ Hst Hpage Hc).
    cbn [fst snd]. split; [done|].
    unfold local. cbn [frame assoc String.eqb Ascii.eqb Bool.eqb].
    eexists. split; [reflexivity | apply columns_distinct_projection].
Qed.
End Engine_errors.

(** ** The columns of the time table *)

#[local] Arguments df_withColumn : simpl never.

(** Names the engine takes for one resolve alike against a third. *)
Lemma same_name_eq n c' c : same_name n c' = true -> same_name c c' = same_name c n.
Proof. unfold same_name. by intros ->%String.eqb_eq. Qed.

Lemma has_column_insert cols n i c :
  col_index cols n = Some i ->
  has_column (<[i := n]> cols) c = has_column cols c || same_name c n.
Proof.
  revert i. induction cols as [|c' cols IH]; intros i; cbn [col_index]; [done|].
  destruct (same_name n c') eqn:Hn.
  - intros [= <-]. cbn. rewrite (same_name_eq _ _ c Hn).
    destruct (same_name c n), (existsb _ cols); done.
  - destruct (col_index cols n) as [j|] eqn:Hj; [|done]. intros [= <-]. cbn.
    change (existsb (same_name c) (<[j := n]> cols)) with (has_column (<[j := n]> cols) c).
    rewrite (IH j eq_refl). unfold has_column. by rewrite orb_assoc.
Qed.

(** [withColumn] adds the column it names and, for the engine, no
    other. *)
Lemma has_column_withColumn E n x d c :
  has_column (columns (df_withColumn E n x d)) c
  = has_column (columns d) c || same_name c n.
Proof.
  unfold df_withColumn. destruct (col_index (columns d) n) as [i|] eqn:Hi; cbn [columns].
  - by apply has_column_insert.
  - unfold has_column. rewrite existsb_app. cbn. by rewrite orb_false_r.
Qed.

Lemma mem_insert_other cols n i c :
  col_index cols n = Some i -> same_name c n = false ->
  mem c (<[i := n]> cols) = mem c cols.
Proof.
  intros Hi Hc.
  assert (Hcn : String.eqb c n = false).
  { destruct (String.eqb_spec c n) as [->|]; [|done]. by rewrite same_name_refl in Hc. }
  revert i Hi. induction cols as [|c' cols IH]; intros i; cbn [col_index]; [done|].
  destruct (same_name n c') eqn:Hn.
  - intros [= <-]. cbn. rewrite Hcn.
    destruct (String.eqb_spec c c') as [->|]; [|done].
    unfold same_name in *. rewrite String.eqb_sym in Hc. congruence.
  - destruct (col_index cols n) as [j|] eqn:Hj; [|done]. intros [= <-]. cbn.
    change (existsb (String.eqb c) (<[j := n]> cols)) with (mem c (<[j := n]> cols)).
    by rewrite (IH j eq_refl).
Qed.

(** For Python, [withColumn] leaves the columns it does not name as
    they were written. *)
Lemma mem_withColumn_other E n x d c :
  same_name c n = false ->
  mem c (columns (df_withColumn E n x d)) = mem c (columns d).
Proof.
  intros Hc. unfold df_withColumn.
  destruct (col_index (columns d) n) as [i|] eqn:Hi; cbn [columns].
  - by apply mem_insert_other.
  - unfold mem. rewrite existsb_app. cbn.
    destruct (String.eqb_spec c n) as [->|]; [|by rewrite !orb_false_r].
    by rewrite same_name_refl in Hc.
Qed.

Lemma mem_insert_new cols n i : col_index cols n = Some i -> mem n (<[i := n]> cols) = true.
Proof.
  revert i. induction cols as [|c' cols IH]; intros i; cbn [col_index]; [done|].
  destruct (same_name n c').
  - intros [= <-]. cbn. by rewrite String.eqb_refl.
  - destruct (col_index cols n) as [j|] eqn:Hj; [|done]. intros [= <-]. cbn.
    change (existsb (String.eqb n) (<[j := n]> cols)) with (mem n (<[j := n]> cols)).
    rewrite (IH j eq_refl). apply orb_true_r.
Qed.

(** The column [withColumn] names is there under this name. *)
Lemma mem_withColumn_new E n x d : mem n (columns (df_withColumn E n x d)) = true.
Proof.
  unfold df_withColumn. destruct (col_index (columns d) n) as [i|] eqn:Hi; cbn [columns].
  - by apply mem_insert_new.
  - unfold mem. rewrite existsb_app. cbn. by rewrite String.eqb_refl, orb_true_r.
Qed.

(** What lines 88-94 and 105-111 leave in [df]. *)
Lemma time_lines_run E input_data output_data s st :
  fs s !! log_path input_data = Some st ->
  has_columns (table st) ["page"; "ts"] = true ->
  mem "datetime" (columns (table st)) = false ->
  time_lines E (branch_frame s input_data output_data)
  = (Raise (if has_column (columns (table st)) "datetime"
            then AttributeError "DataFrame" "datetime"
            else cannot_resolve "datetime"),
     mkState (fs s) (config s) (environ s)
       [ ("df", PDataFrame (with_timestamp_and_date E (df_filter E is_next_song (table st))));
         ("get_datetime", PUdf Lambda110); ("get_timestamp", PUdf Lambda106);
         ("log_data", PStr (log_path input_data));
         ("spark", PSession); ("input_data", PStr input_data);
         ("output_data", PStr output_data) ]
       (trace s ++ [ERead (log_path input_data)])).
Proof.
  intros Hst Hc Hdt.
  pose proof (has_columns_mem _ _ "page" Hc ltac:(cbn; tauto)) as Hpage.
  pose proof (has_columns_mem _ _ "ts" Hc ltac:(cbn; tauto)) as Hts.
  pose proof (mem_has_column _ _ Hpage) as Hpage'.
  pose proof (mem_has_column _ _ Hts) as Hts'.
  destruct s as [f c e fr tr]. unfold branch_frame, log_path, with_timestamp_and_date in *.
  cbn [fs config environ trace] in *.
  unfold time_lines, log_line88, log_line91, log_line94, log_line106, log_line107, log_line110,
    log_line111, log_line114, with_ts_column, with_fn_column.
  run. rewrite Hst.
  repeat (progress cbn -[lookup insert] || rewrite columns_df_filter
          || rewrite (mem_withColumn_other E "timestamp" _ _ "ts" eq_refl)
          || rewrite has_column_withColumn
          || rewrite Hts || rewrite Hpage || rewrite Hts' || rewrite Hpage' || mem_step).
  unfold unresolved, analysis_error, cannot_resolve.
  cbn [List.find resolves negb missing_name].
  rewrite !has_column_withColumn, columns_df_filter.
  change (same_name "datetime" "date") with false.
  change (same_name "datetime" "timestamp") with false.
  rewrite !orb_false_r.
  destruct (has_column (columns (table st)) "datetime") eqn:Hres.
  - repeat (progress cbn -[lookup insert]
            || rewrite (mem_withColumn_other E "date" _ _ "datetime" eq_refl)
            || rewrite (mem_withColumn_other E "timestamp" _ _ "datetime" eq_refl)
            || rewrite columns_df_filter || rewrite Hdt || mem_step).
    reflexivity.
  - cbn -[lookup insert].
    rewrite !has_column_withColumn, columns_df_filter, Hres. reflexivity.
Qed.

(** X15.  Lines 105-122 on a readable log with [page] and [ts]
    columns and no column written [datetime]: lines 107 and 111 add
    [timestamp] and [date] and no [datetime].  On a log in which the
    engine resolves no [datetime], in whatever case, the select of line
    114 raises the engine's error; on a log with such a column under
    another spelling, as [Datetime], the select passes and
    [df.datetime] of line 115 raises the AttributeError, Python looking
    the name up as it is written.  In both cases no time table is
    built. *)
Theorem time_table_needs_a_datetime_column E input_data output_data s st :
  fs s !! log_path input_data = Some st ->
  has_columns (table st) ["page"; "ts"] = true ->
  mem "datetime" (columns (table st)) = false ->
  let r := time_lines E (branch_frame s input_data output_data) in
  (has_column (columns (table st)) "datetime" = false ->
     fst r = Raise (cannot_resolve "datetime")) /\
  (has_column (columns (table st)) "datetime" = true ->
     fst r = Raise (AttributeError "DataFrame" "datetime")) /\
  local (snd r) "time_table" = None /\
  exists d, local (snd r) "df" = Some (PDataFrame d) /\
            mem "timestamp" (columns d) = true /\
            mem "date" (columns d) = true /\
            mem "datetime" (columns d) = false.
Proof.
  intros Hst Hc Hdt r. subst r.
  rewrite (time_lines_run E _ _ _ _ Hst Hc Hdt). cbn [fst snd].
  split; [by intros ->|]. split; [by intros ->|]. split; [done|].
  unfold local. cbn [frame assoc String.eqb Ascii.eqb Bool.eqb].
  eexists. split; [reflexivity|]. unfold with_timestamp_and_date.
  rewrite (mem_withColumn_other E "date" _ _ "timestamp" eq_refl), mem_withColumn_new.
  rewrite mem_withColumn_new.
  rewrite (mem_withColumn_other E "date" _ _ "datetime" eq_refl).
  rewrite (mem_withColumn_other E "timestamp" _ _ "datetime" eq_refl).
  by rewrite columns_df_filter.
Qed.

(** ** What a call of a branch reads and prints *)

(** X16.  A call of either branch, on any storage: it reads one path
    once, ['song_data'] for the song branch whatever [input_data] is and
    [input_data + 'log_data/*.json'] for the log branch, prints at most
    the schema of its first table, and shows no row, registers no view
    and writes nothing. *)
Theorem branches_read_one_path_and_show_no_rows E input_data output_data s :
  (exists evs,
     trace (snd (process_song_data E PSession (PStr input_data) (PStr output_data) s))
     = trace s ++ ECall "process_song_data" :: ERead "song_data" :: evs /\
     (evs = [] \/ evs = [EPrintSchema songs_cols])) /\
  (exists evs,
     trace (snd (process_log_data E PSession (PStr input_data) (PStr output_data) s))
     = trace s ++ ECall "process_log_data" :: ERead (log_path input_data) :: evs /\
     (evs = [] \/ evs = [EPrintSchema users_cols])).
Proof.
  split.
  - destruct (fs s !! "song_data") as [st|] eqn:Hst;
      [destruct (resolvable (table st) songs_cols) eqn:Hc|].
    + rewrite (process_song_data_resolved E _ _ _ _ Hst Hc). cbn [snd trace]. eauto.
    + destruct (unresolved_first_missing _ _ Hc) as (x & _ & _ & Hun).
      exists []. split; [|by left].
      destruct s as [f c e fr tr]. cbn [fs trace] in *.
      unfold process_song_data, enter.
      unfold song_line42, song_line45, song_line48, song_line51, song_line52.
      run. rewrite Hst. run.
      change [CName "song_id"; CName "title"; CName "artist_id"; CName "year";
              CName "duration"] with (map CName songs_cols).
      rewrite Hun. cbn -[lookup insert]. by rewrite <- !app_assoc.
    + exists []. split; [|by left].
      destruct s as [f c e fr tr]. cbn [fs trace] in *.
      unfold process_song_data, enter.
      unfold song_line42, song_line45, song_line48, song_line51, song_line52.
      run. rewrite Hst. run. by rewrite <- !app_assoc.
  - destruct (fs s !! log_path input_data) as [st|] eqn:Hst;
      [destruct (mem "page" (columns (table st))) eqn:Hpage;
       [destruct (resolvable (table st) users_cols) eqn:Hc|]|].
    + rewrite (process_log_data_resolved E _ _ _ _ Hst Hpage Hc). cbn [snd trace]. eauto.
    + destruct (unresolved_first_missing _ _ Hc) as (x & _ & _ & Hun).
      pose proof (mem_has_column _ _ Hpage) as Hpage'.
      exists []. split; [|by left].
      destruct s as [f c e fr tr]. cbn [fs trace] in *. unfold log_path in *.
      unfold process_log_data, enter.
      unfold log_line88, log_line91, log_line94, log_line97, log_line98, log_line99,
        print_schema, show_truncated.
      run. rewrite Hst. run.
      change [CName "userId"; CName "firstName"; CName "lastName"; CName "gender";
              CName "level"] with (map CName users_cols).
      rewrite columns_df_filter, Hun. cbn -[lookup insert]. by rewrite <- !app_assoc.
    + exists []. split; [|by left].
      destruct s as [f c e fr tr]. cbn [fs trace] in *. unfold log_path in *.
      unfold process_log_data, enter.
      unfold log_line88, log_line91, log_line94, log_line97, log_line98, log_line99,
        print_schema, show_truncated.
      run. rewrite Hst. run. by rewrite <- !app_assoc.
    + exists []. split; [|by left].
      destruct s as [f c e fr tr]. cbn [fs trace] in *. unfold log_path in *.
      unfold process_log_data, enter.
      unfold log_line88, log_line91, log_line94, log_line97, log_line98, log_line99,
        print_schema, show_truncated.
      run. rewrite Hst. run. by rewrite <- !app_assoc.
Qed.

(** ** The artists table *)

(** X17.  Lines 61-64, run in a frame whose [df] is a data frame with
    the five artist columns: [artists_table] is bound to a table with
    these columns, no row twice and exactly the artist tuples of [df],
    its schema is printed, and storage is as it was. *)
Theorem artists_table_one_row_per_distinct_tuple E s d :
  local s "df" = Some (PDataFrame d) ->
  has_columns d artists_cols = true ->
  let r := (song_line61 E ;; song_line64 E) s in
  fst r = Ok tt /\
  fs (snd r) = fs s /\
  trace (snd r) = trace s ++ [EPrintSchema artists_cols] /\
  exists t,
    local (snd r) "artists_table" = Some (PDataFrame t) /\
    columns t = artists_cols /\
    NoDup (rows t) /\
    (forall x, x ∈ rows t <-> exists r, r ∈ rows d /\ x = project artists_cols d r).
Proof.
  intros Hd Hc r. subst r. apply unresolved_names in Hc.
  unfold local in Hd. destruct s as [f c e fr tr]. cbn [frame fs trace] in *.
  unfold song_line61, song_line64.
  run. rewrite Hd. run.
  change [CName "artist_id"; CName "artist_name"; CName "artist_location";
          CName "artist_latitude"; CName "artist_longitude"] with (map CName artists_cols).
  rewrite Hc. run.
  split; [done|]. split; [done|].
  change (df_dropDuplicates (df_select E ?cs d)) with (distinct_projection E artists_cols d).
  rewrite columns_distinct_projection. split; [done|].
  unfold local. cbn [frame assoc String.eqb Ascii.eqb Bool.eqb].
  eexists. split; [reflexivity|].
  split; [apply columns_distinct_projection|].
  split; [apply NoDup_distinct_projection|].
  intros x. apply elem_of_distinct_projection.
Qed.

(** ** The hypotheses of the further properties hold on the small lake *)

Lemma module_body_exports_credentials_witness :
  config one_play !! "AWS"
  = Some (<[ "AWS_ACCESS_KEY_ID" := "key" ]> (<[ "AWS_SECRET_ACCESS_KEY" := "secret" ]> ∅)) /\
  environ (snd (module_body one_play))
  = <["AWS_SECRET_ACCESS_KEY" := "secret"]> (<["AWS_ACCESS_KEY_ID" := "key"]> ∅).
Proof.
  assert (H1 : config one_play !! "AWS"
               = Some (<[ "AWS_ACCESS_KEY_ID" := "key" ]>
                         (<[ "AWS_SECRET_ACCESS_KEY" := "secret" ]> ∅)))
    by (vm_compute; reflexivity).
  split; [exact H1|].
  rewrite (module_body_exports_credentials one_play _ "key" "secret" eq_refl eq_refl H1
             ltac:(vm_compute; reflexivity) ltac:(vm_compute; reflexivity)).
  reflexivity.
Defined.

Lemma missing_credentials_stop_the_script_witness :
  script identity_engine (start ∅ ∅) = (Raise (KeyError "AWS"), start ∅ ∅) /\
  script identity_engine (start ∅ cfg_empty_section)
  = (Raise (KeyError "AWS_ACCESS_KEY_ID"), start ∅ cfg_empty_section) /\
  fst (script identity_engine (start ∅ cfg_access_key_only))
  = Raise (KeyError "AWS_SECRET_ACCESS_KEY").
Proof.
  split; [|split].
  - apply (proj1 (missing_credentials_stop_the_script identity_engine (start ∅ ∅)
                    eq_refl eq_refl)).
    vm_compute; reflexivity.
  - apply (proj1 (proj2 (missing_credentials_stop_the_script identity_engine
                           (start ∅ cfg_empty_section) eq_refl eq_refl))
             (∅ : gmap string string));
      vm_compute; reflexivity.
  - assert (Hsec : config (start ∅ cfg_access_key_only) !! "AWS"
                   = Some (<[ "AWS_ACCESS_KEY_ID" := "key" ]> ∅))
      by (vm_compute; reflexivity).
    rewrite (proj2 (proj2 (missing_credentials_stop_the_script identity_engine
                             (start ∅ cfg_access_key_only) eq_refl eq_refl))
               _ "key" Hsec); [reflexivity | vm_compute; reflexivity..].
Defined.

Lemma main_without_output_location_witness :
  config (start ∅ cfg_empty_section) !! "S3" = None /\
  fst (main identity_engine (start ∅ cfg_empty_section)) = Raise (KeyError "S3") /\
  trace (snd (main identity_engine (start ∅ cfg_empty_section)))
  = [ECall "main"; ECall "create_spark_session"].
Proof.
  assert (H : config (start ∅ cfg_empty_section) !! "S3" = None)
    by (vm_compute; reflexivity).
  destruct (main_without_output_location identity_engine (start ∅ cfg_empty_section))
    as (H1 & _ & H3).
  split; [exact H|]. split; [exact (H1 H)|].
  apply H3. vm_compute; reflexivity.
Defined.

Lemma full_run_prints_the_users_schema_and_fails_witness :
  let r := script identity_engine one_play in
  fst r = Raise (TypeError "show() got an unexpected keyword argument 'truncated'") /\
  fs (snd r) = lake [elvis_play] [hound_dog] /\
  trace (snd r) = [ ECall "main"; ECall "create_spark_session"; ECall "process_log_data";
                    ERead "s3a://udacity-dend/log_data/*.json"; EPrintSchema users_cols ].
Proof.
  assert (Haws : dl_cfg !! "AWS"
                 = Some (<[ "AWS_ACCESS_KEY_ID" := "key" ]>
                           (<[ "AWS_SECRET_ACCESS_KEY" := "secret" ]> ∅)))
    by (vm_compute; reflexivity).
  assert (Hs3 : dl_cfg !! "S3" = Some (<[ "OUTPUT_DATA" := lake_output ]> ∅))
    by (vm_compute; reflexivity).
  destruct (full_run_prints_the_users_schema_and_fails identity_engine
              (lake [elvis_play] [hound_dog]) dl_cfg _ "key" "secret" _ lake_output
              (mkStored [] (mkDF log_columns [elvis_play]))
              Haws ltac:(vm_compute; reflexivity) ltac:(vm_compute; reflexivity)
              Hs3 ltac:(vm_compute; reflexivity) ltac:(vm_compute; reflexivity)
              ltac:(vm_compute; reflexivity)) as (H1 & H2 & _ & H4).
  split; [exact H1|]. split; [exact H2 | exact H4].
Defined.

Lemma song_branch_show_lines_raise_name_errors_witness :
  bound_in song_all_names before_line52 /\
  (exists t, local before_line52 "songs_table" = Some (PDataFrame t)) /\
  song_line52 identity_engine before_line52 = (Raise (NameError "songs_tables"), before_line52) /\
  song_line65 identity_engine before_line52 = (Raise (NameError "artist_table"), before_line52).
Proof.
  assert (H : bound_in song_all_names before_line52)
    by (unfold bound_in, local; apply params_bound; vm_compute; reflexivity).
  destruct (song_branch_show_lines_raise_name_errors identity_engine before_line52 H)
    as [H1 H2].
  split; [exact H|]. split; [eexists; vm_compute; reflexivity|]. split; assumption.
Defined.

Lemma log_branch_shows_and_output_writes_raise_witness :
  bound_in log_all_names before_line103 /\
  (exists e, fst (log_line103 identity_engine before_line103) = Raise e /\
             fs (snd (log_line103 identity_engine before_line103)) = fs before_line103) /\
  (exists e, fst (log_line129 identity_engine before_line103) = Raise e /\
             fs (snd (log_line129 identity_engine before_line103)) = fs before_line103).
Proof.
  assert (H : bound_in log_all_names before_line103)
    by (unfold bound_in, local; apply params_bound; vm_compute; reflexivity).
  destruct (log_branch_shows_and_output_writes_raise identity_engine before_line103 H)
    as (_ & H103 & _ & H129 & _).
  split; [exact H|]. split; assumption.
Defined.

Lemma join_statement_always_raises_witness :
  bound_in log_names_at_135 before_line135_with_catalog /\
  exists e,
    col_of_attr identity_engine "df" "artist" before_line135_with_catalog
    = (Raise e, before_line135_with_catalog) /\
    log_line135 identity_engine before_line135_with_catalog
    = (Raise e, before_line135_with_catalog).
Proof.
  assert (H : bound_in log_names_at_135 before_line135_with_catalog)
    by (unfold bound_in, local; apply params_bound; vm_compute; reflexivity).
  split; [exact H|].
  exact (proj2 (join_statement_always_raises identity_engine before_line135_with_catalog H)
           (mkDF log_columns [elvis_play]) (PDataFrame (mkDF catalog_columns [hound_dog]))
           eq_refl eq_refl eq_refl).
Defined.

Lemma output_data_writes_replace_their_destination_witness :
  local before_line58 "output_data" = Some (PStr lake_output) /\
  local before_line58 "os" = None /\
  exists d s',
    local before_line58 "songs_table" = Some (PDataFrame d) /\
    columns d = songs_cols /\
    song_line58 identity_engine before_line58 = (Ok tt, s') /\
    fs (snd (song_line58 identity_engine s')) = fs s' /\
    trace s' = [EWrite (path_join lake_output "songs_table.parquet") "overwrite"].
Proof.
  assert (H1 : local before_line58 "output_data" = Some (PStr lake_output)) by reflexivity.
  assert (H2 : local before_line58 "os" = None) by reflexivity.
  destruct (output_data_writes_replace_their_destination identity_engine before_line58
              lake_output H1 H2) as (H58 & _ & _).
  destruct (proj1 (H58 _ eq_refl) eq_refl) as [Ha Hb].
  split; [exact H1|]. split; [exact H2|].
  eexists _, _. split; [reflexivity|]. split; [reflexivity|].
  split; [exact Ha|]. split; [exact Hb | reflexivity].
Defined.

Lemma songs_table_one_row_per_distinct_tuple_witness :
  let st := mkStored [] (mkDF catalog_columns [hound_dog; hound_dog]) in
  let s' := snd (process_song_data identity_engine PSession (PStr lake_input)
                   (PStr lake_output) twin_records) in
  fs twin_records !! "song_data" = Some st /\
  has_columns (table st) songs_cols = true /\
  exists t,
    local s' "songs_table" = Some (PDataFrame t) /\
    NoDup (rows t) /\
    rows t = [ [VStr "SOHOUND"; VStr "Hound Dog"; VStr "ARELVIS"; VLong 1956;
                VDouble 4639059459935535104] ].
Proof.
  intros st s'.
  assert (H1 : fs twin_records !! "song_data" = Some st) by (vm_compute; reflexivity).
  assert (H2 : has_columns (table st) songs_cols = true) by (vm_compute; reflexivity).
  destruct (songs_table_one_row_per_distinct_tuple identity_engine lake_input lake_output
              twin_records st H1 H2) as (t & Ht & _ & Hnd & _).
  split; [exact H1|]. split; [exact H2|].
  exists t. split; [exact Ht|]. split; [exact Hnd|].
  vm_compute in Ht. injection Ht as <-. reflexivity.
Defined.

Lemma users_table_depends_on_the_plays_only_witness :
  exists u1 u2,
    local (snd (process_log_data identity_engine PSession (PStr lake_input)
                  (PStr lake_output) level_change)) "users_table" = Some (PDataFrame u1) /\
    local (snd (process_log_data identity_engine PSession (PStr lake_input)
                  (PStr lake_output) level_change_shuffled)) "users_table"
    = Some (PDataFrame u2) /\
    columns u1 = columns u2 /\
    forall t, t ∈ rows u1 <-> t ∈ rows u2.
Proof.
  apply (users_table_depends_on_the_plays_only identity_engine lake_input lake_output
           level_change level_change_shuffled
           (mkStored [] (mkDF log_columns
              [ play "Elvis Presley" "Hound Dog" "free" 1541903636796;
                play "Elvis Presley" "Jailhouse Rock" "paid" 1541990036796;
                play "Elvis Presley" "Hound Dog" "paid" 1541990236796;
                home_visit ]))
           (mkStored [] (mkDF log_columns
              [ play "Elvis Presley" "Hound Dog" "paid" 1541990236796;
                play "Elvis Presley" "Hound Dog" "free" 1541903636796;
                play "Elvis Presley" "Jailhouse Rock" "paid" 1541990036796;
                play "Elvis Presley" "Hound Dog" "free" 1541903636796 ])));
    try (vm_compute; reflexivity).
  intros r Hpage. cbn [table rows].
  rewrite !elem_of_cons, !elem_of_nil.
  split; intros H; destruct_or!; subst; try done; try (vm_compute in Hpage; discriminate);
    tauto.
Defined.

Lemma song_branch_engine_errors_witness :
  fst (process_song_data identity_engine PSession (PStr lake_input) (PStr lake_output)
         empty_lake) = Raise (path_does_not_exist "song_data") /\
  (exists c,
     In c songs_cols /\
     fst (process_song_data identity_engine PSession (PStr lake_input) (PStr lake_output)
            (start lake_without_year_and_page dl_cfg)) = Raise (cannot_resolve c)) /\
  fst (process_song_data identity_engine PSession (PStr lake_input) (PStr lake_output)
         (start lake_in_other_case dl_cfg)) = Raise (NameError "songs_tables").
Proof.
  split; [|split].
  - apply (proj1 (song_branch_engine_errors identity_engine lake_input lake_output
                    empty_lake)).
    vm_compute; reflexivity.
  - destruct (proj1 (proj2 (song_branch_engine_errors identity_engine lake_input lake_output
                              (start lake_without_year_and_page dl_cfg)))
                (mkStored [] (mkDF ["artist_id"; "duration"; "song_id"; "title"] []))
                ltac:(vm_compute; reflexivity) ltac:(vm_compute; reflexivity))
      as (c & Hin & _ & Hr & _).
    exists c. split; assumption.
  - apply (proj2 (proj2 (song_branch_engine_errors identity_engine lake_input lake_output
                           (start lake_in_other_case dl_cfg)))
             (mkStored [] (mkDF ["Artist_Id"; "Duration"; "Song_Id"; "Title"; "Year"] [])));
      vm_compute; reflexivity.
Defined.

Lemma log_branch_engine_errors_witness :
  fst (process_log_data identity_engine PSession (PStr lake_input) (PStr lake_output)
         empty_lake) = Raise (path_does_not_exist (log_path lake_input)) /\
  fst (process_log_data identity_engine PSession (PStr lake_input) (PStr lake_output)
         (start lake_without_year_and_page dl_cfg)) = Raise (AttributeError "DataFrame" "page") /\
  (exists c,
     In c users_cols /\
     fst (process_log_data identity_engine PSession (PStr lake_input) (PStr lake_output)
            (start lake_without_level dl_cfg)) = Raise (cannot_resolve c)) /\
  fst (process_log_data identity_engine PSession (PStr lake_input) (PStr lake_output)
         (start lake_in_other_case dl_cfg))
  = Raise (TypeError "show() got an unexpected keyword argument 'truncated'").
Proof.
  split; [|split; [|split]].
  - apply (proj1 (log_branch_engine_errors identity_engine lake_input lake_output
                    empty_lake)).
    vm_compute; reflexivity.
  - apply (proj1 (proj2 (log_branch_engine_errors identity_engine lake_input lake_output
                           (start lake_without_year_and_page dl_cfg)))
             (mkStored [] (mkDF ["firstName"; "gender"; "lastName"; "level"; "userId"] [])));
      vm_compute; reflexivity.
  - destruct (proj1 (proj2 (proj2 (log_branch_engine_errors identity_engine lake_input
                                     lake_output (start lake_without_level dl_cfg))))
                (mkStored [] (mkDF ["firstName"; "gender"; "lastName"; "page"; "userId"] []))
                ltac:(vm_compute; reflexivity) ltac:(vm_compute; reflexivity)
                ltac:(vm_compute; reflexivity))
      as (c & Hin & _ & Hr & _).
    exists c. split; assumption.
  - apply (proj2 (proj2 (proj2 (log_branch_engine_errors identity_engine lake_input
                                  lake_output (start lake_in_other_case dl_cfg))))
             (mkStored [] (mkDF other_case_log_columns [])));
      vm_compute; reflexivity.
Defined.

Lemma time_table_needs_a_datetime_column_witness :
  let st := mkStored [] (mkDF log_columns [elvis_play]) in
  let st' := mkStored [] (mkDF other_case_log_columns []) in
  fs one_play !! log_path lake_input = Some st /\
  has_columns (table st) ["page"; "ts"] = true /\
  mem "datetime" (columns (table st)) = false /\
  fst (time_lines identity_engine (branch_frame one_play lake_input lake_output))
  = Raise (cannot_resolve "datetime") /\
  has_column (columns (table st')) "datetime" = true /\
  fst (time_lines identity_engine
         (branch_frame (start lake_in_other_case dl_cfg) lake_input lake_output))
  = Raise (AttributeError "DataFrame" "datetime").
Proof.
  intros st st'.
  assert (H1 : fs one_play !! log_path lake_input = Some st) by (vm_compute; reflexivity).
  assert (H2 : has_columns (table st) ["page"; "ts"] = true) by (vm_compute; reflexivity).
  assert (H3 : mem "datetime" (columns (table st)) = false) by (vm_compute; reflexivity).
  assert (H4 : has_column (columns (table st')) "datetime" = true)
    by (vm_compute; reflexivity).
  split; [exact H1|]. split; [exact H2|]. split; [exact H3|].
  split; [|split; [exact H4|]].
  - apply (proj1 (time_table_needs_a_datetime_column identity_engine lake_input lake_output
                    one_play st H1 H2 H3)).
    vm_compute; reflexivity.
  - apply (proj1 (proj2 (time_table_needs_a_datetime_column identity_engine lake_input
                           lake_output (start lake_in_other_case dl_cfg) st'
                           ltac:(vm_compute; reflexivity) ltac:(vm_compute; reflexivity)
                           ltac:(vm_compute; reflexivity)))).
    exact H4.
Defined.

Lemma artists_table_one_row_per_distinct_tuple_witness :
  let d := mkDF catalog_columns [hound_dog; hound_dog] in
  let s' := snd ((song_line61 identity_engine ;; song_line64 identity_engine) before_line61) in
  local before_line61 "df" = Some (PDataFrame d) /\
  has_columns d artists_cols = true /\
  exists t,
    local s' "artists_table" = Some (PDataFrame t) /\
    NoDup (rows t) /\
    rows t = [ [VStr "ARELVIS"; VStr "Elvis Presley"; VStr "Tupelo, MS"; VNull; VNull] ].
Proof.
  intros d s'.
  assert (H1 : local before_line61 "df" = Some (PDataFrame d)) by reflexivity.
  assert (H2 : has_columns d artists_cols = true) by (vm_compute; reflexivity).
  destruct (artists_table_one_row_per_distinct_tuple identity_engine before_line61 d H1 H2)
    as (_ & _ & _ & t & Ht & _ & Hnd & _).
  split; [exact H1|]. split; [exact H2|].
  exists t. split; [exact Ht|]. split; [exact Hnd|].
  vm_compute in Ht. injection Ht as <-. reflexivity.
Defined.
